(** * bert_fet: the data-preparation scripts

A shallow embedding of [scripts/cfet2bfet.py], [scripts/sample_cfet.py]
and [scripts/wikiann2cfet.py], and the properties of the offset
re-indexing and of the frequency-aware resampling that they implement.

Python integers are [Z], Python lists are [list], a [dict] or a
[Counter] is a [gmap], a [set] is a [gset].  A file is the list of its
lines; a line of a CFET file is identified with the instance that
[json.loads] reads from it.  Exceptions are explicit results. *)

From Stdlib Require Import ZArith List Ascii String QArith Permutation Lia.
From stdpp Require Import gmap strings list fin_maps pretty.

Open Scope Z_scope.

(** ** Python runtime: exceptions, calls, subscripts *)

Module Py.

(** The exceptions that the scripts can raise; [OSError] is the one of a
    model that cannot be loaded. *)
Inductive exn : Type :=
| TypeError
| ValueError
| IndexError
| ZeroDivisionError
| OSError.

Inductive result (A : Type) : Type :=
| Ok (a : A)
| Raise (e : exn).
Arguments Ok {A} a.
Arguments Raise {A} e.

(** A computation over a state [S] that may raise.  The state reached
    when the exception is raised is kept: what was written to a file
    before the failure stays written. *)
Definition M (S A : Type) : Type := S -> S * result A.

Definition ret {S A} (a : A) : M S A := fun s => (s, Ok a).

Definition bind {S A B} (m : M S A) (k : A -> M S B) : M S B :=
  fun s =>
    match m s with
    | (s', Ok a) => k a s'
    | (s', Raise e) => (s', Raise e)
    end.

Definition lift {S A} (r : result A) : M S A := fun s => (s, r).

Definition modify {S} (f : S -> S) : M S unit := fun s => (f s, Ok tt).

(** [for x in xs: body(x)] *)
Fixpoint for_each {S A} (xs : list A) (body : A -> M S unit) : M S unit :=
  match xs with
  | [] => ret tt
  | x :: xs' => bind (body x) (fun _ => for_each xs' body)
  end.

(** Pure part of the same thing: a result-valued map, left to right. *)
Fixpoint map_result {A B} (f : A -> result B) (xs : list A)
  : result (list B) :=
  match xs with
  | [] => Ok []
  | x :: xs' =>
      match f x with
      | Raise e => Raise e
      | Ok y =>
          match map_result f xs' with
          | Raise e => Raise e
          | Ok ys => Ok (y :: ys)
          end
      end
  end.

(** A call of a function that declares two positional parameters without
    defaults.  An argument the call site does not pass is [None]; binding
    the parameters then fails with [TypeError]. *)
Definition call2 {A B R} (f : A -> B -> R) (a : option A) (b : option B)
  : result R :=
  match a, b with
  | Some x, Some y => Ok (f x y)
  | _, _ => Raise TypeError
  end.

(** [l[i]] on a list: a negative index counts from the end, anything
    outside [-len, len) raises [IndexError]. *)
Definition subscript {A} (l : list A) (i : Z) : result A :=
  let n := Z.of_nat (length l) in
  let j := if i <? 0 then i + n else i in
  if (0 <=? j) && (j <? n) then
    match l !! Z.to_nat j with
    | Some x => Ok x
    | None => Raise IndexError
    end
  else Raise IndexError.

Definition len {A} (l : list A) : Z := Z.of_nat (length l).

End Py.

Import Py.

Declare Scope py_scope.
Delimit Scope py_scope with py.
Notation "x <- m ;; k" := (bind m (fun x => k))
  (at level 100, m at next level, right associativity) : py_scope.
Notation "m ;;; k" := (bind m (fun _ => k))
  (at level 100, right associativity) : py_scope.

(** ** The CFET line format *)

Module Cfet.

Record annotation : Type := {
  mention : string;
  mention_id : string;
  start : Z;
  end_ : Z;
  labels : list string
}.

Record instance : Type := {
  tokens : list string;
  annotations : list annotation
}.

(** The invariant the data model declares for a span. *)
Definition span_ok (inst : instance) (a : annotation) : Prop :=
  0 <= start a /\ start a < end_ a /\ end_ a <= len (tokens inst).

End Cfet.

Import Cfet.

(** ** scripts/cfet2bfet.py *)

Module Cfet2Bfet.

(** The tokenizer of the transformers library, as far as the script
    calls it.  [encode] may raise: what it accepts as its first argument
    is the library's business. *)
Record tokenizer : Type := {
  tk_tokenize : string -> list string;
  tk_encode : list string -> bool -> Z -> result (list Z)
}.

(** What an annotation field of the output line can hold: a number, or a
    two-element tuple (written by [json.dumps] as an array). *)
Inductive pyval : Type :=
| PyInt (z : Z)
| PyTuple (a b : Z).

Record bfet_annotation : Type := {
  cfet : annotation;
  piece_start : pyval;
  piece_end : pyval
}.

Record bfet_instance : Type := {
  b_tokens : list string;
  b_annotations : list bfet_annotation;
  pieces : list Z
}.

(** The loop of [tokenize]: [offset], [piece_indices] and
    [pieces_list_flat] are the three variables it updates. *)
Definition tokenize_loop
  (pieces_list : list (list string))
  (acc : Z * list (Z * Z) * list string)
  : Z * list (Z * Z) * list string :=
  fold_left
    (fun '(offset, piece_indices, pieces_list_flat) pieces =>
       let e := offset + len pieces in
       (e, piece_indices ++ [(offset, e)], pieces_list_flat ++ pieces))
    pieces_list acc.

Definition tokenize (tokens : list string) (tokenizer : tokenizer)
  : list string * list (Z * Z) :=
  let pieces_list := map (tk_tokenize tokenizer) tokens in
  let '(_, piece_indices, pieces_list_flat) :=
    tokenize_loop pieces_list (0, [], []) in
  (pieces_list_flat, piece_indices).

(** Lines 107-109 of [convert], for one annotation. *)
Definition add_piece_offsets (piece_indices : list (Z * Z)) (a : annotation)
  : result bfet_annotation :=
  match subscript piece_indices (start a) with
  | Raise e => Raise e
  | Ok (sb, se) =>
      match subscript piece_indices (end_ a) with
      | Raise e => Raise e
      | Ok (eb, ee) =>
          Ok {| cfet := a;
                piece_start := PyTuple sb se;
                piece_end := PyTuple eb ee |}
      end
  end.

Record conv_state : Type := {
  written : list bfet_instance;
  overlength_num : Z
}.

Definition write (l : bfet_instance) : M conv_state unit :=
  modify (fun s => {| written := written s ++ [l];
                      overlength_num := overlength_num s |}).

Definition count_overlength : M conv_state unit :=
  modify (fun s => {| written := written s;
                      overlength_num := overlength_num s + 1 |}).

(** Lines 98-111: the loop body once [pieces, piece_indices] are bound. *)
Definition convert_rest (tokenizer : tokenizer) (max_len : Z)
  (inst : instance) (tokenized : list string * list (Z * Z))
  : M conv_state unit :=
  let text_max_len := max_len - 2 in
  let '(pcs, piece_indices) := tokenized in
  if len pcs >? text_max_len then count_overlength
  else
    (ids <- lift (tk_encode tokenizer pcs true max_len) ;;
     anns <- lift (map_result (add_piece_offsets piece_indices)
                     (annotations inst)) ;;
     write {| b_tokens := tokens inst;
              b_annotations := anns;
              pieces := ids |})%py.

(** Lines 95-111.  The call on line 97 passes [tokens] alone. *)
Definition convert_line (tokenizer : tokenizer) (max_len : Z)
  (line : instance) : M conv_state unit :=
  let inst := line in
  let tokens := tokens inst in
  (tokenized <- lift (call2 tokenize (Some tokens) None) ;;
   convert_rest tokenizer max_len inst tokenized)%py.

Section Convert.

(** The two [from_pretrained] constructors of the transformers
    library; loading a model may fail. *)
Variable BertTokenizerFast_from_pretrained :
  string -> option string -> result tokenizer.
Variable RobertaTokenizerFast_from_pretrained :
  string -> option string -> result tokenizer.

Definition create_tokenizer (model_name : string)
  (cache_dir : option string) : result tokenizer :=
  if String.prefix "bert" model_name then
    BertTokenizerFast_from_pretrained model_name cache_dir
  else if String.prefix "roberta" model_name then
    RobertaTokenizerFast_from_pretrained model_name cache_dir
  else Raise ValueError.

Definition init_state : conv_state :=
  {| written := []; overlength_num := 0 |}.

Definition convert (input_file : list instance) (bert_model : string)
  (bert_cache_dir : option string) (max_len : Z)
  : conv_state * result unit :=
  (tokenizer <- lift (create_tokenizer bert_model bert_cache_dir) ;;
   for_each input_file (convert_line tokenizer max_len))%py init_state.

End Convert.

End Cfet2Bfet.


(** ** scripts/sample_cfet.py *)

Module SampleCfet.

(** Python floats, as far as the script computes with them.  [of_int] is
    the conversion of an [int] operand (the counts and thresholds are far
    inside the range of a double), [point55] the literal [.55].  The
    comparisons are those of numbers: no operand here is a NaN, so
    [x <= y] is the negation of [y < x]. *)
Class PyFloat (F : Type) : Type := {
  of_int : Z -> F;
  fadd : F -> F -> F;
  fdiv : F -> F -> F;
  fpow : F -> F -> F;
  flt : F -> F -> bool;
  fle : F -> F -> bool;
  point55 : F;
  fle_flt : forall x y, fle x y = negb (flt y x)
}.

(** [label_count[label]] on a [Counter]: a missing key reads as 0. *)
Definition counter_get `{Countable K} (c : gmap K Z) (k : K) : Z :=
  default 0 (c !! k).

(** [Counter.update(iterable)]: one more for every element. *)
Definition counter_update (c : gmap string Z) (ls : list string)
  : gmap string Z :=
  fold_left (fun c l => <[l := counter_get c l + 1]> c) ls c.

(** The counting pass; the printing of the table returns nothing. *)
Definition count_labels (input_file : list instance) : gmap string Z :=
  fold_left
    (fun label_count inst =>
       fold_left
         (fun label_count annotation =>
            counter_update label_count (labels annotation))
         (annotations inst) label_count)
    input_file ∅.

(** [list.sort(key=lambda x: x[1])] is a stable sort on the count; the
    stable sort of a list is unique, insertion is one way to compute it. *)
Fixpoint insert_by_count (x : string * Z) (l : list (string * Z))
  : list (string * Z) :=
  match l with
  | [] => [x]
  | y :: l' =>
      if x.2 <=? y.2 then x :: y :: l' else y :: insert_by_count x l'
  end.

Fixpoint sort_by_count (l : list (string * Z)) : list (string * Z) :=
  match l with
  | [] => []
  | x :: l' => insert_by_count x (sort_by_count l')
  end.

(** [(label, label_count[label]) for annotation in ... for label in ...] *)
Definition inst_label_count (label_count : gmap string Z) (inst : instance)
  : list (string * Z) :=
  flat_map
    (fun annotation =>
       map (fun label => (label, counter_get label_count label))
         (labels annotation))
    (annotations inst).

Record ds_state : Type := {
  ds_out : list instance;
  total_num : Z;
  sample_num : Z;
  ds_rng : nat
}.

Definition ds_init : ds_state :=
  {| ds_out := []; total_num := 0; sample_num := 0; ds_rng := 0 |}.

Definition count_total : M ds_state unit :=
  modify (fun s => {| ds_out := ds_out s; total_num := total_num s + 1;
                      sample_num := sample_num s; ds_rng := ds_rng s |}).

(** [w.write(line); sample_num += 1] *)
Definition keep (line : instance) : M ds_state unit :=
  modify (fun s => {| ds_out := ds_out s ++ [line];
                      total_num := total_num s;
                      sample_num := sample_num s + 1;
                      ds_rng := ds_rng s |}).

Record split_state : Type := {
  train : list instance;
  dev : list instance;
  sp_rng : nat
}.

Definition sp_init : split_state :=
  {| train := []; dev := []; sp_rng := 0 |}.

(** [{label for label, count in label_count.items() if count < threshold}] *)
Definition infreq_labels (label_count : gmap string Z) (threshold : Z)
  : gset string :=
  dom (filter (fun kv => kv.2 < threshold) label_count).

Section Sampling.

Context {F : Type} `{PyFloat F}.

(** [x / n] for a float [x] and an int [n]: a zero divisor raises. *)
Definition truediv (x : F) (n : Z) : result F :=
  if n =? 0 then Raise ZeroDivisionError else Ok (fdiv x (of_int n)).

(** The generator behind [random.uniform(0, 1)]: the draws it will
    return, in order; a state records how many were taken. *)
Variable draws : nat -> F.

Definition ds_uniform : M ds_state F :=
  fun s => ({| ds_out := ds_out s; total_num := total_num s;
               sample_num := sample_num s; ds_rng := S (ds_rng s) |},
            Ok (draws (ds_rng s))).

(** Lines 32-46: the body of the sampling loop. *)
Definition downsample_line (label_count : gmap string Z) (threshold : Z)
  (line : instance) : M ds_state unit :=
  (count_total ;;;
   let inst := line in
   let sorted := sort_by_count (inst_label_count label_count inst) in
   first <- lift (subscript sorted 0) ;;
   let min_label_count := first.2 in
   if min_label_count <? threshold then keep line
   else
     let ratio :=
       fadd (of_int threshold)
         (fpow (of_int (min_label_count - threshold)) point55) in
     u <- ds_uniform ;;
     p <- lift (truediv ratio min_label_count) ;;
     if flt u p then keep line else ret tt)%py.

Definition downsample (input_file : list instance) (threshold : Z)
  : ds_state * result unit :=
  let label_count := count_labels input_file in
  for_each input_file (downsample_line label_count threshold) ds_init.

(** Lines 72-80: the body of the second loop of [split].  [or] evaluates
    its right operand, and so draws, only when [infreq] is false. *)
Definition split_line (infreq_labels : gset string) (rate : F)
  (s : split_state) (line : instance) : split_state :=
  let inst := line in
  let infreq :=
    existsb (fun label => bool_decide (label ∈ infreq_labels))
      (flat_map labels (annotations inst)) in
  if infreq then
    {| train := train s ++ [line]; dev := dev s; sp_rng := sp_rng s |}
  else
    let u := draws (sp_rng s) in
    if flt rate u then
      {| train := train s ++ [line]; dev := dev s; sp_rng := S (sp_rng s) |}
    else
      {| train := train s; dev := dev s ++ [line]; sp_rng := S (sp_rng s) |}.

Definition split (input_file : list instance) (threshold : Z) (rate : F)
  : split_state :=
  let label_count :=
    fold_left
      (fun label_count inst =>
         let annotations := annotations inst in
         fold_left
           (fun label_count annotation =>
              counter_update label_count (labels annotation))
           annotations label_count)
      input_file ∅ in
  let infreq_labels := infreq_labels label_count threshold in
  fold_left (split_line infreq_labels rate) input_file sp_init.

End Sampling.

(** Rational arithmetic as an interpretation of the float interface, for
    running the sampling on concrete inputs.  Every double is a rational:
    the conversions and the comparisons are those of Python, and the sum
    and the quotient are the exact ones, without the rounding of the last
    place.  The power [x ** y] is the real power cut to 64 binary places,
    for a base [x >= 0] and an exponent [y > 0], which is what the script
    evaluates (the base is [min_label_count - threshold] where that is
    not negative, the exponent [.55]).  So the interpretation agrees with
    the doubles of Python up to their rounding. *)
Definition Q_lt (x y : Q) : bool := negb (Qle_bool y x).

(** The largest [r] in [lo, hi) with [r ^ k <= n], by bisection. *)
Fixpoint root_between (fuel : nat) (k n lo hi : Z) : Z :=
  match fuel with
  | O => lo
  | S fuel' =>
      let mid := (lo + hi) / 2 in
      if mid =? lo then lo
      else if mid ^ k <=? n then root_between fuel' k n mid hi
      else root_between fuel' k n lo mid
  end.

(** The integer part of the [k]-th root of [n >= 0]. *)
Definition iroot (k n : Z) : Z :=
  let bits := Z.log2 n / k + 2 in
  root_between (S (Z.to_nat bits)) k n 0 (2 ^ bits).

(** [(n/d) ** (a/b)] is the [b]-th root of [n^a * d^(a*(b-1))] over
    [d^a]; the root is taken of the number scaled by [2^(64*b)]. *)
Definition Q_pow (x y : Q) : Q :=
  let y := Qred y in
  let a := Qnum y in
  let b := Z.pos (Qden y) in
  let n := Qnum x in
  let d := Z.pos (Qden x) in
  if a =? 0 then 1%Q
  else if (n <? 0) || (a <? 0) then 0%Q
  else
    let scale := 2 ^ 64 in
    Qmake (iroot b (n ^ a * d ^ (a * (b - 1)) * scale ^ b))
      (Z.to_pos (d ^ a * scale)).

#[export] Instance Q_float : PyFloat Q := {|
  of_int := inject_Z;
  fadd := Qplus;
  fdiv := Qdiv;
  fpow := Q_pow;
  flt := Q_lt;
  fle := Qle_bool;
  point55 := (55 # 100)%Q;
  fle_flt := fun x y => eq_sym (negb_involutive (Qle_bool x y))
|}.

End SampleCfet.

(** The [__main__] block of sample_cfet.py (lines 83-91): [downsample]
    with the threshold 50000 into a file, then [split] of that file with
    the threshold 200 and the rate 0.005.  The generator is the one of
    the process: [split] draws on from where [downsample] stopped. *)

Module SampleCfetMain.

Import SampleCfet.

Section Main.

Context {F : Type} `{PyFloat F}.
Variable draws : nat -> F.

(** The literal [0.005]. *)
Variable point005 : F.

Definition main (input_file : list instance)
  : ds_state * result split_state :=
  match downsample draws input_file 50000 with
  | (s, Ok _) =>
      let output_file := ds_out s in
      (s, Ok (split (fun n => draws (ds_rng s + n)%nat) output_file 200
                point005))
  | (s, Raise e) => (s, Raise e)
  end.

End Main.

End SampleCfetMain.


(** ** scripts/wikiann2cfet.py *)

Module Wikiann2Cfet.

(** What the document store returns: sentences with character-offset
    tokens and links.  The title of a link is the field that
    [title_field_name] names; a link may lack it. *)
Record token : Type := {
  tok_text : string;
  tok_start : Z;
  tok_end : Z
}.

Record link : Type := {
  link_title : option string;
  link_text : string;
  link_start : Z;
  link_end : Z
}.

Record doc : Type := {
  doc_id : string;
  doc_links : list link;
  doc_tokens : list token
}.

(** An element of [entities]: [(text, start, end, types)]. *)
Record entity : Type := {
  e_text : string;
  e_start : Z;
  e_end : Z;
  e_types : list string
}.

(** [title.replace(' ', '_')] *)
Fixpoint replace_space (s : string) : string :=
  match s with
  | EmptyString => EmptyString
  | String c s' =>
      String (if Ascii.eqb c " " then "_"%char else c) (replace_space s')
  end.

Record ex_state : Type := {
  doc_mention_count : gmap string Z;
  valid_num : Z;
  entity_num : Z;
  not_matched_num : Z;
  title_num : Z;
  out : list instance
}.

Definition ex_init : ex_state :=
  {| doc_mention_count := ∅; valid_num := 0; entity_num := 0;
     not_matched_num := 0; title_num := 0; out := [] |}.

Section Extract.

Variable entity_type_map : gmap string (list string).
Variable type_set : gset string.

(** Lines 110-126: one link; [acc] is [(entities, title_num)]. *)
Definition collect_link (acc : list entity * Z) (l : link)
  : list entity * Z :=
  let '(entities, title_num) := acc in
  match link_title l with
  | None => (entities, title_num)
  | Some title =>
      let title := replace_space title in
      match entity_type_map !! title with
      | None => (entities, title_num)
      | Some types =>
          let title_num := title_num + 1 in
          let types := filter (fun t => t ∈ type_set) types in
          match types with
          | [] => (entities, title_num)
          | _ :: _ =>
              (entities ++ [{| e_text := link_text l;
                               e_start := link_start l;
                               e_end := link_end l;
                               e_types := types |}], title_num)
          end
      end
  end.

(** Lines 133-137: the two offset tables; a later token overwrites. *)
Definition offset_maps (tokens : list token) : gmap Z Z * gmap Z Z :=
  fold_left
    (fun '(token_start_offset_map, token_end_offset_map) '(token_idx, token) =>
       (<[tok_start token := token_idx]> token_start_offset_map,
        <[tok_end token := token_idx + 1]> token_end_offset_map))
    (imap (fun i t => (Z.of_nat i, t)) tokens) (∅, ∅).

(** ['{}-{}'.format(doc_id, n)] *)
Definition format_mention_id (doc_id : string) (n : Z) : string :=
  doc_id +:+ "-" +:+ pretty n.

(** Lines 140-155: one entity; [acc] is
    [(annotations, doc_mention_count, not_matched_num)]. *)
Definition annotate_entity (doc_id : string)
  (token_start_offset_map token_end_offset_map : gmap Z Z)
  (acc : list annotation * gmap string Z * Z) (e : entity)
  : list annotation * gmap string Z * Z :=
  let '(annotations, doc_mention_count, not_matched_num) := acc in
  match token_start_offset_map !! e_start e,
        token_end_offset_map !! e_end e with
  | Some start, Some end_ =>
      (annotations ++
         [{| mention := e_text e;
             mention_id :=
               format_mention_id doc_id
                 (SampleCfet.counter_get doc_mention_count doc_id);
             start := start;
             end_ := end_;
             labels := e_types e |}],
       <[doc_id := SampleCfet.counter_get doc_mention_count doc_id + 1]>
         doc_mention_count,
       not_matched_num)
  | _, _ => (annotations, doc_mention_count, not_matched_num + 1)
  end.

(** Lines 107-163: one document. *)
Definition extract_doc (s : ex_state) (d : doc) : ex_state :=
  let doc_id := doc_id d in
  let links := doc_links d in
  let '(entities, title_num) :=
    fold_left collect_link links ([], title_num s) in
  match entities with
  | [] =>
      {| doc_mention_count := doc_mention_count s;
         valid_num := valid_num s; entity_num := entity_num s;
         not_matched_num := not_matched_num s; title_num := title_num;
         out := out s |}
  | _ :: _ =>
      let entity_num := entity_num s + 1 in
      let tokens := doc_tokens d in
      let '(token_start_offset_map, token_end_offset_map) :=
        offset_maps tokens in
      let '(annotations, doc_mention_count, not_matched_num) :=
        fold_left
          (annotate_entity doc_id token_start_offset_map token_end_offset_map)
          entities ([], doc_mention_count s, not_matched_num s) in
      match annotations with
      | [] =>
          {| doc_mention_count := doc_mention_count;
             valid_num := valid_num s; entity_num := entity_num;
             not_matched_num := not_matched_num; title_num := title_num;
             out := out s |}
      | _ :: _ =>
          {| doc_mention_count := doc_mention_count;
             valid_num := valid_num s + 1; entity_num := entity_num;
             not_matched_num := not_matched_num; title_num := title_num;
             out := out s ++
                    [{| tokens := map tok_text tokens;
                        annotations := annotations |}] |}
      end
  end.

(** The loop over the documents that the query returns. *)
Definition extract_data (store : list doc) : ex_state :=
  fold_left extract_doc store ex_init.

End Extract.

End Wikiann2Cfet.


(** ** Concrete data for running the scripts *)

Module Examples.

Import Cfet2Bfet.

(** A tokenizer for examples: the pieces of a word are its characters;
    the encoder puts 101 and 102 around one number per piece and cuts the
    result at [max_length]. *)
Definition chars (w : string) : list string :=
  map (fun c => String c EmptyString) (list_ascii_of_string w).

Definition char_tokenizer : tokenizer :=
  {| tk_tokenize := chars;
     tk_encode := fun pcs _ max_length =>
       Ok (take (Z.to_nat max_length)
             (101 :: map (fun p => Z.of_nat (String.length p)) pcs
                ++ [102])) |}.

Definition load_chars (model_name : string) (cache_dir : option string)
  : result tokenizer := Ok char_tokenizer.

Definition span (s e : Z) (ls : list string) : annotation :=
  {| mention := "m"; mention_id := "d-0"; start := s; end_ := e;
     labels := ls |}.

(** [{"tokens": ["ab", "c"], "annotations": [span 0..1]}] *)
Definition two_tokens : instance :=
  {| tokens := ["ab"; "c"]; annotations := [span 0 1 ["T"]] |}.

(** [{"tokens": ["a"], "annotations": [span 0..1]}] *)
Definition one_token : instance :=
  {| tokens := ["a"]; annotations := [span 0 1 ["T"]] |}.

(** Four pieces, no annotation. *)
Definition four_pieces : instance :=
  {| tokens := ["abcd"]; annotations := [] |}.

Definition labelled (ls : list string) : instance :=
  {| tokens := ["w"]; annotations := [span 0 1 ls] |}.

(** The corpus of the frequency-counting example. *)
Definition corpus_AB_B : list instance := [labelled ["A"; "B"]; labelled ["B"]].

(** One annotation that lists the same label twice. *)
Definition corpus_AA : list instance := [labelled ["A"; "A"]].

(** The generator that always returns one half. *)
Definition half (n : nat) : Q := (1 # 2)%Q.

(** The document of the offset round-trip example, with three links:
    "cat" on a token, one that cuts through tokens, and "sat". *)
Definition cat_tokens : list Wikiann2Cfet.token :=
  [ {| Wikiann2Cfet.tok_text := "The"; Wikiann2Cfet.tok_start := 0;
       Wikiann2Cfet.tok_end := 3 |};
    {| Wikiann2Cfet.tok_text := "cat"; Wikiann2Cfet.tok_start := 4;
       Wikiann2Cfet.tok_end := 7 |};
    {| Wikiann2Cfet.tok_text := "sat"; Wikiann2Cfet.tok_start := 8;
       Wikiann2Cfet.tok_end := 11 |} ].

Definition mk_link (title : option string) (text : string) (s e : Z)
  : Wikiann2Cfet.link :=
  {| Wikiann2Cfet.link_title := title; Wikiann2Cfet.link_text := text;
     Wikiann2Cfet.link_start := s; Wikiann2Cfet.link_end := e |}.

Definition cat_doc : Wikiann2Cfet.doc :=
  {| Wikiann2Cfet.doc_id := "d1";
     Wikiann2Cfet.doc_links :=
       [ mk_link (Some "Cat") "cat" 4 7;
         mk_link (Some "Cat") "e ca" 2 6;
         mk_link None "The" 0 3;
         mk_link (Some "Sitting") "sat" 8 11 ];
     Wikiann2Cfet.doc_tokens := cat_tokens |}.

Definition other_doc : Wikiann2Cfet.doc :=
  {| Wikiann2Cfet.doc_id := "d0";
     Wikiann2Cfet.doc_links := [ mk_link (Some "Cat") "cat" 4 7 ];
     Wikiann2Cfet.doc_tokens := cat_tokens |}.

Definition types_of : gmap string (list string) :=
  {[ "Cat" := ["Animal"; "Thing"]; "Sitting" := ["Posture"] ]}.

Definition ontology : gset string := {[ "Animal"; "Posture" ]}.

(** A file whose second line carries no label. *)
Definition unlabelled : instance := labelled [].

(** Three tokens, the annotation over the first. *)
Definition three_tokens : list string := ["ab"; "c"; "d"].

(** Ten lines with the same label. *)
Definition corpus_ten : list instance := repeat (labelled ["A"]) 10.

(** A file that starts with a line without labels. *)
Definition corpus_blocked : list instance :=
  [unlabelled; labelled ["B"]; labelled ["B"]].

End Examples.

(** * Properties *)

(** ** Definitions that follow the words of the specification *)

Module Spec.

(** The piece-index table as the data model describes it: one entry per
    token, each starting at the running offset and as wide as the piece
    list of its token. *)
Fixpoint table_from (offset : Z) (pieces_list : list (list string))
  : list (Z * Z) :=
  match pieces_list with
  | [] => []
  | pieces :: rest =>
      (offset, offset + len pieces) :: table_from (offset + len pieces) rest
  end.

(** Occurrences of a label in one list of labels, in one instance, in a
    corpus: one per (instance, annotation, position in [labels]). *)
Fixpoint occ (label : string) (ls : list string) : Z :=
  match ls with
  | [] => 0
  | l :: ls' => (if decide (l = label) then 1 else 0) + occ label ls'
  end.

Definition occ_inst (label : string) (inst : instance) : Z :=
  foldr (fun a n => occ label (labels a) + n) 0 (annotations inst).

Definition occurrences (label : string) (corpus : list instance) : Z :=
  foldr (fun inst n => occ_inst label inst + n) 0 corpus.

(** The annotations of a corpus that carry a label, each counted once. *)
Definition carriers (label : string) (corpus : list instance) : Z :=
  foldr
    (fun inst n =>
       len (filter (fun a => label ∈ labels a) (annotations inst)) + n)
    0 corpus.

(** How a [Counter] that has only been incremented stores a count. *)
Definition stored (n : Z) : option Z := if decide (0 < n) then Some n else None.

(** [m] is the least global count among the labels of [inst]. *)
Definition min_count (label_count : gmap string Z) (inst : instance) (m : Z)
  : Prop :=
  (exists a l, a ∈ annotations inst /\ l ∈ labels a
               /\ SampleCfet.counter_get label_count l = m)
  /\ (forall a l, a ∈ annotations inst -> l ∈ labels a ->
                  m <= SampleCfet.counter_get label_count l).

(** [inst] has a label whose global count is below [threshold]. *)
Definition has_rare_label (label_count : gmap string Z) (threshold : Z)
  (inst : instance) : Prop :=
  exists a l, a ∈ annotations inst /\ l ∈ labels a
              /\ SampleCfet.counter_get label_count l < threshold.

(** The entity that a link contributes, when it has a title, the title
    has types, and one of the types is in the ontology. *)
Definition link_entity (entity_type_map : gmap string (list string))
  (type_set : gset string) (l : Wikiann2Cfet.link)
  : option Wikiann2Cfet.entity :=
  match Wikiann2Cfet.link_title l with
  | None => None
  | Some title =>
      match entity_type_map !! Wikiann2Cfet.replace_space title with
      | None => None
      | Some types =>
          match filter (fun t => t ∈ type_set) types with
          | [] => None
          | t :: ts =>
              Some {| Wikiann2Cfet.e_text := Wikiann2Cfet.link_text l;
                      Wikiann2Cfet.e_start := Wikiann2Cfet.link_start l;
                      Wikiann2Cfet.e_end := Wikiann2Cfet.link_end l;
                      Wikiann2Cfet.e_types := t :: ts |}
          end
      end
  end.

(** The span of the entity starts where a token starts and ends where a
    token ends. *)
Definition aligned (tokens : list Wikiann2Cfet.token)
  (e : Wikiann2Cfet.entity) : bool :=
  existsb (fun t => Wikiann2Cfet.tok_start t =? Wikiann2Cfet.e_start e) tokens
  && existsb (fun t => Wikiann2Cfet.tok_end t =? Wikiann2Cfet.e_end e) tokens.

(** The links of a document that become annotations, in link order. *)
Definition valid_entities (entity_type_map : gmap string (list string))
  (type_set : gset string) (d : Wikiann2Cfet.doc)
  : list Wikiann2Cfet.entity :=
  List.filter (aligned (Wikiann2Cfet.doc_tokens d))
    (omap (link_entity entity_type_map type_set) (Wikiann2Cfet.doc_links d)).

(** The number of annotations that the documents of [pre] with the id
    [id] have produced. *)
Definition numbered_before (entity_type_map : gmap string (list string))
  (type_set : gset string) (id : string) (pre : list Wikiann2Cfet.doc) : Z :=
  len (flat_map (valid_entities entity_type_map type_set)
         (filter (fun d => Wikiann2Cfet.doc_id d = id) pre)).

End Spec.

Import Spec.

(** ** Further definitions used to state properties of the code *)

Module SpecMore.

(** The number of pieces that the first [i] tokens give. *)
Definition pieces_before (tokenizer : Cfet2Bfet.tokenizer)
  (tokens : list string) (i : Z) : Z :=
  len (concat (map (Cfet2Bfet.tk_tokenize tokenizer)
                 (take (Z.to_nat i) tokens))).

(** A table entry moved by [d] pieces. *)
Definition shift (d : Z) (p : Z * Z) : Z * Z := (p.1 + d, p.2 + d).

(** The instance carries at least one label. *)
Definition has_label (inst : instance) : Prop :=
  flat_map labels (annotations inst) <> [].

(** The instance has a label whose count is below the threshold, as a
    test. *)
Definition rare_b (label_count : gmap string Z) (threshold : Z)
  (inst : instance) : bool :=
  existsb (fun l => SampleCfet.counter_get label_count l <? threshold)
    (flat_map labels (annotations inst)).

(** The link has a title that the entity type map knows, once its
    spaces are underscores. *)
Definition has_types (entity_type_map : gmap string (list string))
  (l : Wikiann2Cfet.link) : bool :=
  match Wikiann2Cfet.link_title l with
  | Some title =>
      bool_decide
        (is_Some (entity_type_map !! Wikiann2Cfet.replace_space title))
  | None => false
  end.

(** The typed links of a document, as entities. *)
Definition entities_of (entity_type_map : gmap string (list string))
  (type_set : gset string) (d : Wikiann2Cfet.doc)
  : list Wikiann2Cfet.entity :=
  omap (link_entity entity_type_map type_set) (Wikiann2Cfet.doc_links d).

(** [i] is the index of the last token that starts at the offset [k]. *)
Definition last_start (tokens : list Wikiann2Cfet.token) (k i : Z) : Prop :=
  0 <= i
  /\ (exists t, tokens !! Z.to_nat i = Some t /\ Wikiann2Cfet.tok_start t = k)
  /\ (forall j t, tokens !! j = Some t -> Wikiann2Cfet.tok_start t = k ->
                  Z.of_nat j <= i).

(** [i] is one more than the index of the last token that ends at [k]. *)
Definition last_end (tokens : list Wikiann2Cfet.token) (k i : Z) : Prop :=
  1 <= i
  /\ (exists t, tokens !! Z.to_nat (i - 1) = Some t
                /\ Wikiann2Cfet.tok_end t = k)
  /\ (forall j t, tokens !! j = Some t -> Wikiann2Cfet.tok_end t = k ->
                  Z.of_nat j + 1 <= i).

(** A token never starts before an earlier token has ended. *)
Definition tokens_ordered (tokens : list Wikiann2Cfet.token) : Prop :=
  forall i j ti tj,
    tokens !! i = Some ti -> tokens !! j = Some tj -> (i < j)%nat ->
    Wikiann2Cfet.tok_end ti <= Wikiann2Cfet.tok_start tj.

(** [inst] is the output line of the document [d], written when the
    counter of its id stood at [c]: the tokens are those of [d], and the
    annotations are those of the valid entities of [d], in order, with
    the token indices that the offset tables give. *)
Definition line_of (entity_type_map : gmap string (list string))
  (type_set : gset string) (d : Wikiann2Cfet.doc) (c : Z) (inst : instance)
  : Prop :=
  let valid := valid_entities entity_type_map type_set d in
  let maps := Wikiann2Cfet.offset_maps (Wikiann2Cfet.doc_tokens d) in
  tokens inst = map Wikiann2Cfet.tok_text (Wikiann2Cfet.doc_tokens d)
  /\ annotations inst <> []
  /\ length (annotations inst) = length valid
  /\ forall k a,
       annotations inst !! k = Some a ->
       mention_id a
       = Wikiann2Cfet.format_mention_id (Wikiann2Cfet.doc_id d)
           (c + Z.of_nat k)
       /\ exists e,
            valid !! k = Some e
            /\ mention a = Wikiann2Cfet.e_text e
            /\ labels a = Wikiann2Cfet.e_types e
            /\ maps.1 !! Wikiann2Cfet.e_start e = Some (start a)
            /\ maps.2 !! Wikiann2Cfet.e_end e = Some (end_ a).

(** Sum of [f] over a list. *)
Definition sumZ {A} (f : A -> Z) (l : list A) : Z :=
  foldr (fun x n => f x + n) 0 l.

Definition nonempty {A} (l : list A) : bool :=
  match l with [] => false | _ :: _ => true end.

End SpecMore.

Import SpecMore.

(** ** cfet2bfet: the piece-index table *)

Section TokenizeFacts.

Import Cfet2Bfet.

Lemma len_app {A} (l k : list A) : len (l ++ k) = len l + len k.
Proof. unfold len. rewrite length_app. lia. Qed.

Lemma len_nonneg {A} (l : list A) : 0 <= len l.
Proof. unfold len. lia. Qed.

Lemma tokenize_loop_spec pieces_list offset piece_indices flat :
  tokenize_loop pieces_list (offset, piece_indices, flat) =
    (offset + len (concat pieces_list),
     piece_indices ++ table_from offset pieces_list,
     flat ++ concat pieces_list).
Proof.
  revert offset piece_indices flat.
  induction pieces_list as [|pieces rest IH]; intros offset piece_indices flat.
  - cbn. unfold len; cbn. by rewrite Z.add_0_r, !app_nil_r.
  - cbn [tokenize_loop fold_left]. fold (tokenize_loop rest).
    rewrite IH. cbn [concat table_from].
    rewrite len_app, <- !app_assoc. cbn. by rewrite Z.add_assoc.
Qed.

Lemma tokenize_spec tokens tokenizer :
  tokenize tokens tokenizer =
    (concat (map (tk_tokenize tokenizer) tokens),
     table_from 0 (map (tk_tokenize tokenizer) tokens)).
Proof. unfold tokenize. by rewrite tokenize_loop_spec. Qed.

Lemma table_from_length offset pl : length (table_from offset pl) = length pl.
Proof.
  revert offset. induction pl as [|p pl IH]; intros offset; cbn; [done|].
  by rewrite IH.
Qed.

Lemma table_from_lookup offset pl i b e :
  table_from offset pl !! i = Some (b, e) ->
  exists pieces, pl !! i = Some pieces
    /\ b = offset + len (concat (take i pl))
    /\ e = b + len pieces.
Proof.
  revert offset i. induction pl as [|p pl IH]; intros offset i Hi; [done|].
  destruct i as [|i]; cbn in Hi.
  - inversion Hi; subst. exists p. cbn. unfold len at 1. cbn. split; [done|lia].
  - destruct (IH _ _ Hi) as (q & Hq & Hb & He). exists q.
    cbn. rewrite len_app. split; [done|]. lia.
Qed.

Lemma table_from_bounds offset pl i b e :
  table_from offset pl !! i = Some (b, e) ->
  offset <= b /\ b <= e /\ e <= offset + len (concat pl).
Proof.
  revert offset i. induction pl as [|p pl IH]; intros offset i Hi; [done|].
  pose proof (len_nonneg p). pose proof (len_nonneg (concat pl)).
  cbn [concat]. rewrite len_app.
  destruct i as [|i]; cbn in Hi.
  - inversion Hi; subst. lia.
  - apply IH in Hi. lia.
Qed.

Lemma table_from_ordered offset pl i j b e b' e' :
  (i < j)%nat ->
  table_from offset pl !! i = Some (b, e) ->
  table_from offset pl !! j = Some (b', e') ->
  e <= b'.
Proof.
  revert offset i j. induction pl as [|p pl IH]; intros offset i j Hij Hi Hj;
    [done|].
  destruct j as [|j]; [lia|]. cbn in Hj.
  destruct i as [|i]; cbn in Hi.
  - inversion Hi; subst. apply table_from_bounds in Hj. lia.
  - eapply (IH _ i j); [lia|done..].
Qed.

Lemma table_from_cover offset pl p :
  offset <= p < offset + len (concat pl) ->
  exists i b e, table_from offset pl !! i = Some (b, e) /\ b <= p < e.
Proof.
  revert offset. induction pl as [|q pl IH]; intros offset Hp.
  - unfold len in Hp; cbn in Hp. lia.
  - cbn [concat] in Hp. rewrite len_app in Hp.
    destruct (Z_lt_dec p (offset + len q)) as [Hlt|Hge].
    + exists 0%nat, offset, (offset + len q). cbn. split; [done|lia].
    + destruct (IH (offset + len q)) as (i & b & e & Hi & Hb); [lia|].
      exists (S i), b, e. by cbn.
Qed.

(** C5. For every token list and every tokenizer, [tokenize] returns the
    concatenation of the per-token pieces together with a table that has
    one [(offset_begin, offset_end)] entry per token; entry 0 begins at 0,
    each entry begins where the previous one ends, the last entry ends at
    the number of pieces, entry [i] is as wide as the piece list of token
    [i], and every piece index below the total lies in exactly one
    entry. *)
Theorem tokenize_piece_index_partition (tokens : list string)
  (tokenizer : tokenizer) :
  let flat := (tokenize tokens tokenizer).1 in
  let table := (tokenize tokens tokenizer).2 in
  flat = concat (map (tk_tokenize tokenizer) tokens)
  /\ length table = length tokens
  /\ (forall b e, table !! 0%nat = Some (b, e) -> b = 0)
  /\ (forall i b e b' e',
        table !! i = Some (b, e) -> table !! S i = Some (b', e') -> b' = e)
  /\ (forall b e, last table = Some (b, e) -> e = len flat)
  /\ (forall i t b e,
        tokens !! i = Some t -> table !! i = Some (b, e) ->
        0 <= b /\ e - b = len (tk_tokenize tokenizer t))
  /\ (forall p, 0 <= p < len flat ->
        exists i b e,
          table !! i = Some (b, e) /\ b <= p < e
          /\ forall j b' e',
               table !! j = Some (b', e') -> b' <= p < e' -> j = i).
Proof.
  rewrite tokenize_spec. cbn [fst snd].
  set (pl := map (tk_tokenize tokenizer) tokens).
  split; [done|]. split; [unfold pl; by rewrite table_from_length, length_map|].
  split; [|split; [|split; [|split]]].
  - intros b e H0. apply table_from_lookup in H0 as (q & _ & Hb & _).
    rewrite Hb, take_0. unfold len; cbn. lia.
  - intros i b e b' e' Hi HSi.
    apply table_from_lookup in Hi as (q & Hq & Hb & He).
    apply table_from_lookup in HSi as (q' & _ & Hb' & _).
    rewrite (take_S_r _ _ _ Hq), concat_app, len_app in Hb'.
    cbn in Hb'. rewrite app_nil_r in Hb'. lia.
  - intros b e Hl. rewrite last_lookup, table_from_length in Hl.
    pose proof Hl as Hl'.
    apply table_from_lookup in Hl as (q & Hq & Hb & He).
    assert (Hn : (pred (length pl) < length pl)%nat)
      by (apply lookup_lt_Some in Hq; lia).
    assert (Hpl : pl = take (S (pred (length pl))) pl)
      by (rewrite firstn_all2; [done|lia]).
    rewrite Hpl, (take_S_r _ _ _ Hq), concat_app, len_app.
    cbn. rewrite app_nil_r. lia.
  - intros i t b e Ht Hi. pose proof (table_from_bounds _ _ _ _ _ Hi) as Hbd.
    apply table_from_lookup in Hi as (q & Hq & Hb & He).
    unfold pl in Hq. rewrite list_lookup_fmap, Ht in Hq.
    inversion Hq; subst q. lia.
  - intros p Hp. destruct (table_from_cover 0 pl p) as (i & b & e & Hi & Hb);
      [lia|].
    exists i, b, e. split; [done|]. split; [done|].
    intros j b' e' Hj Hb'.
    destruct (Nat.lt_trichotomy j i) as [Hlt|[Heq|Hgt]]; [|done|].
    + pose proof (table_from_ordered _ _ _ _ _ _ _ _ Hlt Hj Hi). lia.
    + pose proof (table_from_ordered _ _ _ _ _ _ _ _ Hgt Hi Hj). lia.
Qed.

End TokenizeFacts.

(** ** cfet2bfet: the conversion loop *)

Section ConvertFacts.

Import Cfet2Bfet.

Variable bert roberta : string -> option string -> result tokenizer.

Lemma for_each_raise {S A} (body : A -> M S unit) e x xs s :
  body x s = (s, Raise e) -> for_each (x :: xs) body s = (s, Raise e).
Proof. intros Hx. cbn. unfold bind. by rewrite Hx. Qed.

Lemma convert_line_raises tokenizer max_len line s :
  convert_line tokenizer max_len line s = (s, Raise TypeError).
Proof. reflexivity. Qed.

(** Once the tokenizer is created, [convert] on a file with at least
    one line raises [TypeError] at the first line: the call of [tokenize]
    binds one argument of two.  The state it stops in is the initial one:
    nothing written, nothing counted. *)
Theorem convert_raises_TypeError (line : instance) (rest : list instance)
  (bert_model : string) (bert_cache_dir : option string) (max_len : Z)
  (tokenizer : tokenizer) :
  create_tokenizer bert roberta bert_model bert_cache_dir = Ok tokenizer ->
  convert bert roberta (line :: rest) bert_model bert_cache_dir max_len
  = (init_state, Raise TypeError).
Proof.
  intros Htk. unfold convert, bind, lift. rewrite Htk.
  apply for_each_raise, convert_line_raises.
Qed.

(** Whatever the model name and the input, [convert] writes no line and
    counts no over-length instance. *)
Lemma convert_writes_nothing input_file bert_model bert_cache_dir max_len :
  (convert bert roberta input_file bert_model bert_cache_dir max_len).1
  = init_state.
Proof.
  unfold convert, bind, lift.
  destruct (create_tokenizer _ _ _ _) as [tk|e]; [|done].
  destruct input_file as [|line rest]; [done|].
  by rewrite (for_each_raise _ TypeError).
Qed.

(** An empty input file is the one case in which the loop ends normally. *)
Lemma convert_empty bert_model bert_cache_dir max_len tokenizer :
  create_tokenizer bert roberta bert_model bert_cache_dir = Ok tokenizer ->
  convert bert roberta [] bert_model bert_cache_dir max_len
  = (init_state, Ok tt).
Proof. intros Htk. unfold convert, bind, lift. by rewrite Htk. Qed.

(** A model name outside the two families stops [convert] before the
    files are opened. *)
Lemma convert_unknown_model input_file bert_model bert_cache_dir max_len :
  String.prefix "bert" bert_model = false ->
  String.prefix "roberta" bert_model = false ->
  convert bert roberta input_file bert_model bert_cache_dir max_len
  = (init_state, Raise ValueError).
Proof.
  intros Hb Hr. unfold convert, bind, lift, create_tokenizer.
  by rewrite Hb, Hr.
Qed.

(** The rest of the loop body, had [tokenize] returned: the instance is
    counted and skipped exactly when it has more than [max_len - 2]
    pieces; otherwise it is written once, provided [encode] returns and
    every subscript of the table succeeds. *)
Lemma convert_rest_cases tokenizer max_len inst pcs table s :
  convert_rest tokenizer max_len inst (pcs, table) s =
    if len pcs >? max_len - 2 then
      ({| written := written s; overlength_num := overlength_num s + 1 |},
       Ok tt)
    else
      match tk_encode tokenizer pcs true max_len with
      | Raise e => (s, Raise e)
      | Ok ids =>
          match map_result (add_piece_offsets table) (annotations inst) with
          | Ok anns =>
              ({| written := written s ++
                    [{| b_tokens := tokens inst; b_annotations := anns;
                        pieces := ids |}];
                  overlength_num := overlength_num s |}, Ok tt)
          | Raise e => (s, Raise e)
          end
      end.
Proof.
  unfold convert_rest. destruct (len pcs >? max_len - 2); [done|].
  unfold bind, lift. destruct (tk_encode _ _ _ _); [|done].
  by destruct (map_result _ _).
Qed.

End ConvertFacts.

Section SpanFacts.

Import Cfet2Bfet Examples.

Lemma subscript_Ok {A} (l : list A) i x :
  subscript l i = Ok x ->
  exists j, l !! j = Some x
    /\ Z.of_nat j = (if i <? 0 then i + len l else i).
Proof.
  unfold subscript, len.
  set (j := if i <? 0 then _ else _).
  destruct ((0 <=? j) && (j <? Z.of_nat (length l))) eqn:Hin; [|done].
  apply andb_prop in Hin as [H0 _]. apply Z.leb_le in H0.
  destruct (l !! Z.to_nat j) as [y|] eqn:Hy; [|done].
  intros [= ->]. exists (Z.to_nat j). split; [done|lia].
Qed.

Lemma subscript_end {A} (l : list A) : subscript l (len l) = Raise IndexError.
Proof.
  unfold subscript, len.
  destruct (Z.of_nat (length l) <? 0) eqn:Hneg; [apply Z.ltb_lt in Hneg; lia|].
  by rewrite Z.ltb_irrefl, andb_false_r.
Qed.

(** What lines 107-109 store: both fields are table entries, pairs, the
    one at index [start] and the one at index [end]. *)
Lemma add_piece_offsets_Ok table a r :
  add_piece_offsets table a = Ok r ->
  exists sb se eb ee,
    subscript table (start a) = Ok (sb, se)
    /\ subscript table (end_ a) = Ok (eb, ee)
    /\ piece_start r = PyTuple sb se
    /\ piece_end r = PyTuple eb ee.
Proof.
  unfold add_piece_offsets.
  destruct (subscript table (start a)) as [[sb se]|]; [|done].
  destruct (subscript table (end_ a)) as [[eb ee]|]; [|done].
  intros [= <-]. by exists sb, se, eb, ee.
Qed.

Lemma subscript_Raise {A} (l : list A) i e :
  subscript l i = Raise e -> e = IndexError.
Proof.
  unfold subscript. destruct (_ && _); [|congruence].
  destruct (l !! _); congruence.
Qed.

(** A span that ends at the last token is within the declared invariant,
    and its [piece_end] subscript is one past the table. *)
Lemma add_piece_offsets_last_token tokens tokenizer a :
  end_ a = len tokens ->
  add_piece_offsets (tokenize tokens tokenizer).2 a = Raise IndexError.
Proof.
  intros Hend. unfold add_piece_offsets.
  assert (Hlen : len (tokenize tokens tokenizer).2 = len tokens).
  { rewrite tokenize_spec. unfold len. cbn [snd].
    by rewrite table_from_length, length_map. }
  destruct (subscript _ (start a)) as [[sb se]|e] eqn:Hs.
  - by rewrite Hend, <- Hlen, subscript_end.
  - by rewrite (subscript_Raise _ _ _ Hs).
Qed.

(** C2. On the instance [two_tokens], whose table is [(0,2); (2,3)], the
    annotation over token 0 gets [piece_start = (0, 2)] and
    [piece_end = (2, 3)]: the two table entries at the indices [start] and
    [end], where the piece range of the span is delimited by the numbers
    0 and 2. *)
Theorem add_piece_offsets_two_tokens :
  (tokenize (tokens two_tokens) char_tokenizer).2 = [(0, 2); (2, 3)]
  /\ map_result
       (add_piece_offsets (tokenize (tokens two_tokens) char_tokenizer).2)
       (annotations two_tokens)
     = Ok [{| cfet := span 0 1 ["T"];
              piece_start := PyTuple 0 2;
              piece_end := PyTuple 2 3 |}]
  /\ PyTuple 0 2 <> PyInt 0
  /\ PyTuple 2 3 <> PyInt 2.
Proof. repeat split; try reflexivity; discriminate. Qed.

(** C3. On the instance [one_token] the annotation [0, 1) satisfies the
    declared invariant, the table has one entry, and the subscript by
    [end = 1] raises [IndexError]. *)
Theorem add_piece_offsets_one_token :
  Forall (span_ok one_token) (annotations one_token)
  /\ (tokenize (tokens one_token) char_tokenizer).2 = [(0, 1)]
  /\ map_result
       (add_piece_offsets (tokenize (tokens one_token) char_tokenizer).2)
       (annotations one_token)
     = Raise IndexError.
Proof.
  split; [|split; reflexivity].
  repeat constructor; unfold span_ok, len; cbn; lia.
Qed.

(** C4. On the one-line file [four_pieces] with [max_len = 128] the
    instance is within the budget, yet [convert] writes no line and stops
    with [TypeError]; with [max_len = 5] the instance is over the budget,
    yet the counter stays at 0.  Lines 98-111, run on what [tokenize]
    returns for the line, write it in the first case and count it in the
    second. *)
Theorem convert_four_pieces :
  convert load_chars load_chars [four_pieces] "bert-base-cased" None 128
  = (init_state, Raise TypeError)
  /\ convert load_chars load_chars [four_pieces] "bert-base-cased" None 5
     = (init_state, Raise TypeError)
  /\ convert_rest char_tokenizer 128 four_pieces
       (tokenize (tokens four_pieces) char_tokenizer) init_state
     = ({| written := [{| b_tokens := ["abcd"]; b_annotations := [];
                          pieces := [101; 1; 1; 1; 1; 102] |}];
           overlength_num := 0 |}, Ok tt)
  /\ convert_rest char_tokenizer 5 four_pieces
       (tokenize (tokens four_pieces) char_tokenizer) init_state
     = ({| written := []; overlength_num := 1 |}, Ok tt).
Proof. repeat split; reflexivity. Qed.

End SpanFacts.

(** ** sample_cfet: the label frequency table *)

Section CountFacts.

Import SampleCfet Examples.

Lemma occ_nonneg label ls : 0 <= occ label ls.
Proof. induction ls as [|l ls IH]; cbn; [done|]. case_decide; lia. Qed.

Lemma occ_inst_nonneg label inst : 0 <= occ_inst label inst.
Proof.
  unfold occ_inst. induction (annotations inst) as [|a l IH]; cbn; [done|].
  pose proof (occ_nonneg label (labels a)). lia.
Qed.

Lemma occurrences_nonneg label corpus : 0 <= occurrences label corpus.
Proof.
  unfold occurrences. induction corpus as [|i c IH]; cbn; [done|].
  pose proof (occ_inst_nonneg label i). lia.
Qed.

Lemma counter_get_stored (c : gmap string Z) l n :
  0 <= n -> c !! l = stored n -> counter_get c l = n.
Proof.
  intros Hn Hc. unfold counter_get. rewrite Hc. unfold stored.
  case_decide; cbn; lia.
Qed.

Lemma counter_update_lookup (c : gmap string Z) ls label n :
  0 <= n -> c !! label = stored n ->
  counter_update c ls !! label = stored (n + occ label ls).
Proof.
  unfold counter_update. revert c n.
  induction ls as [|l ls IH]; intros c n Hn Hc; cbn [fold_left occ].
  - by rewrite Z.add_0_r.
  - pose proof (occ_nonneg label ls).
    destruct (decide (l = label)) as [->|Hne].
    + rewrite (IH _ (n + 1)); [f_equal; lia|lia|].
      rewrite lookup_insert_eq, (counter_get_stored c label n Hn Hc).
      unfold stored. case_decide; [done|lia].
    + rewrite (IH _ n); [f_equal; lia|lia|]. by rewrite lookup_insert_ne.
Qed.

Lemma count_inst_lookup (c : gmap string Z) inst label n :
  0 <= n -> c !! label = stored n ->
  fold_left (fun lc a => counter_update lc (labels a)) (annotations inst) c
    !! label = stored (n + occ_inst label inst).
Proof.
  unfold occ_inst. revert c n.
  induction (annotations inst) as [|a l IH]; intros c n Hn Hc; cbn.
  - by rewrite Z.add_0_r.
  - pose proof (occ_nonneg label (labels a)).
    rewrite (IH _ (n + occ label (labels a))); [f_equal; lia|lia|].
    by apply counter_update_lookup.
Qed.

Lemma count_corpus_lookup (c : gmap string Z) corpus label n :
  0 <= n -> c !! label = stored n ->
  fold_left
    (fun lc inst =>
       fold_left (fun lc a => counter_update lc (labels a))
         (annotations inst) lc)
    corpus c !! label
  = stored (n + occurrences label corpus).
Proof.
  unfold occurrences. revert c n.
  induction corpus as [|i corpus IH]; intros c n Hn Hc; cbn.
  - by rewrite Z.add_0_r.
  - pose proof (occ_inst_nonneg label i).
    rewrite (IH _ (n + occ_inst label i)); [f_equal; lia|lia|].
    by apply count_inst_lookup.
Qed.

Lemma count_labels_lookup corpus label :
  count_labels corpus !! label = stored (occurrences label corpus).
Proof.
  unfold count_labels.
  rewrite (count_corpus_lookup ∅ corpus label 0); [done|done|].
  by rewrite lookup_empty.
Qed.

Lemma count_labels_get corpus label :
  counter_get (count_labels corpus) label = occurrences label corpus.
Proof.
  apply counter_get_stored; [apply occurrences_nonneg|].
  apply count_labels_lookup.
Qed.

Lemma occurrences_Permutation label c c' :
  Permutation c c' -> occurrences label c = occurrences label c'.
Proof. unfold occurrences. induction 1; cbn; lia. Qed.

Lemma occ_NoDup label ls :
  NoDup ls -> occ label ls = if decide (label ∈ ls) then 1 else 0.
Proof.
  induction 1 as [|l ls Hl Hnd IH]; cbn.
  - case_decide; [set_solver|done].
  - rewrite IH. destruct (decide (l = label)) as [->|Hne].
    + rewrite (decide_False (P := label ∈ ls)) by done.
      by rewrite decide_True by constructor.
    + destruct (decide (label ∈ ls)) as [Hin|Hnin].
      * by rewrite decide_True by (by constructor).
      * by rewrite decide_False by (by intros [?|?]%elem_of_cons).
Qed.

Lemma occ_inst_NoDup label inst :
  Forall (fun a => NoDup (labels a)) (annotations inst) ->
  occ_inst label inst
  = len (filter (fun a => label ∈ labels a) (annotations inst)).
Proof.
  unfold occ_inst. induction 1 as [|a l Ha Hl IH]; cbn; [done|].
  rewrite IH, (occ_NoDup _ _ Ha).
  case_decide; unfold len; cbn [length]; [|done].
  by rewrite Nat2Z.inj_succ, <- Z.add_1_l.
Qed.

Lemma occurrences_NoDup label corpus :
  Forall (fun inst => Forall (fun a => NoDup (labels a)) (annotations inst))
    corpus ->
  occurrences label corpus = carriers label corpus.
Proof.
  unfold occurrences, carriers. induction 1 as [|i c Hi Hc IH]; cbn; [done|].
  by rewrite IH, (occ_inst_NoDup _ _ Hi).
Qed.

Lemma occ_pos label ls : label ∈ ls -> 0 < occ label ls.
Proof.
  induction 1 as [l ls|l l' ls Hin IH]; cbn.
  - rewrite decide_True by done. pose proof (occ_nonneg l ls). lia.
  - case_decide; lia.
Qed.

Lemma occ_inst_pos label inst a :
  a ∈ annotations inst -> label ∈ labels a -> 0 < occ_inst label inst.
Proof.
  unfold occ_inst. intros Ha Hl.
  induction Ha as [a l|a a' l Hin IH]; cbn.
  - pose proof (occ_pos _ _ Hl).
    assert (0 <= foldr (fun a n => occ label (labels a) + n) 0 l)
      by apply (occ_inst_nonneg label {| tokens := []; annotations := l |}).
    lia.
  - specialize (IH Hl). pose proof (occ_nonneg label (labels a')). lia.
Qed.

Lemma occurrences_pos label corpus inst a :
  inst ∈ corpus -> a ∈ annotations inst -> label ∈ labels a ->
  0 < occurrences label corpus.
Proof.
  intros Hi Ha Hl. unfold occurrences.
  induction Hi as [inst c|inst i' c Hin IH]; cbn.
  - pose proof (occ_inst_pos _ _ _ Ha Hl).
    pose proof (occurrences_nonneg label c). unfold occurrences in *. lia.
  - specialize (IH Ha). pose proof (occ_inst_nonneg label i'). lia.
Qed.

(** Every label of a counted file has a positive count. *)
Lemma count_labels_pos corpus inst a label :
  inst ∈ corpus -> a ∈ annotations inst -> label ∈ labels a ->
  0 < counter_get (count_labels corpus) label.
Proof.
  intros Hi Ha Hl. rewrite count_labels_get. by eapply occurrences_pos.
Qed.

(** C9 with "each carrying annotation contributes exactly 1", on the
    corpus [corpus_AA]: one annotation carries ["A"], and the table holds
    2 for it, not 1. *)
Lemma count_labels_duplicate_label :
  carriers "A" corpus_AA = 1
  /\ counter_get (count_labels corpus_AA) "A" = 2
  /\ counter_get (count_labels corpus_AA) "A" <> carriers "A" corpus_AA.
Proof. vm_compute. repeat split; discriminate. Qed.

(** C9, amended. The table maps each label to the number of its
    occurrences in the [labels] lists of the corpus, one per (instance,
    annotation, position): an annotation contributes as many as its list
    repeats the label, which is 1 for a carried label and 0 otherwise when
    no list repeats a label.  A label that never occurs has no entry.  The
    table does not depend on the order of the instances, and the corpus
    [corpus_AB_B] yields ["A" -> 1, "B" -> 2]. *)
Theorem count_labels_counts_occurrences :
  (forall corpus label,
     counter_get (count_labels corpus) label = occurrences label corpus
     /\ (count_labels corpus !! label = None <-> occurrences label corpus = 0))
  /\ (forall corpus label,
        Forall (fun inst =>
                  Forall (fun a => NoDup (labels a)) (annotations inst))
          corpus ->
        counter_get (count_labels corpus) label = carriers label corpus)
  /\ (forall corpus corpus',
        Permutation corpus corpus' ->
        count_labels corpus = count_labels corpus')
  /\ count_labels corpus_AB_B = {[ "A" := 1; "B" := 2 ]}.
Proof.
  split; [|split; [|split]].
  - intros corpus label. split; [apply count_labels_get|].
    rewrite count_labels_lookup. unfold stored.
    pose proof (occurrences_nonneg label corpus).
    case_decide; split; intros; (done || lia).
  - intros corpus label Hnd.
    by rewrite count_labels_get, occurrences_NoDup.
  - intros c c' Hp. apply map_eq. intros label.
    by rewrite !count_labels_lookup, (occurrences_Permutation _ _ _ Hp).
  - apply map_eq. intros label. rewrite count_labels_lookup.
    destruct (decide (label = "A")) as [->|HA]; [done|].
    destruct (decide (label = "B")) as [->|HB]; [done|].
    rewrite lookup_insert_ne, lookup_singleton_ne by done.
    unfold occurrences, occ_inst; cbn.
    by rewrite !(decide_False (P := _ = label)) by done.
Qed.

End CountFacts.

(** ** sample_cfet: downsampling *)

Section DownsampleFacts.

Import SampleCfet.

Context {F : Type} `{PyFloat F}.
Variable draws : nat -> F.

Lemma insert_by_count_head x l :
  head (insert_by_count x l)
  = Some (match head l with
          | Some y => if x.2 <=? y.2 then x else y
          | None => x
          end).
Proof. destruct l as [|y l]; cbn; [done|]. by destruct (x.2 <=? y.2). Qed.

(** The first element of the sorted list carries a least count. *)
Lemma sort_by_count_head l :
  l <> [] ->
  exists x, head (sort_by_count l) = Some x
            /\ x ∈ l /\ forall y, y ∈ l -> x.2 <= y.2.
Proof.
  induction l as [|x l IH]; [done|]. intros _. cbn [sort_by_count].
  rewrite insert_by_count_head.
  destruct l as [|x' l'].
  - exists x. cbn. split; [done|]. split; [constructor|].
    intros y Hy. apply list_elem_of_singleton in Hy. subst. lia.
  - destruct IH as (m & Hm & Hin & Hle); [done|]. rewrite Hm.
    destruct (x.2 <=? m.2) eqn:Hc.
    + apply Z.leb_le in Hc. exists x. split; [done|]. split; [constructor|].
      intros y [->|Hy]%elem_of_cons; [lia|]. specialize (Hle y Hy). lia.
    + apply Z.leb_gt in Hc. exists m. split; [done|].
      split; [by constructor|].
      intros y [->|Hy]%elem_of_cons; [lia|]. by apply Hle.
Qed.

Lemma subscript_0 {A} (l : list A) x : head l = Some x -> subscript l 0 = Ok x.
Proof. destruct l as [|y l]; [done|]. intros [= ->]. reflexivity. Qed.

Lemma subscript_0_nil {A} : subscript (@nil A) 0 = Raise IndexError.
Proof. reflexivity. Qed.

Lemma elem_of_inst_label_count lc inst x :
  x ∈ inst_label_count lc inst
  <-> exists a l, a ∈ annotations inst /\ l ∈ labels a
                  /\ x = (l, counter_get lc l).
Proof.
  unfold inst_label_count. rewrite list_elem_of_In, in_flat_map. split.
  - intros (a & Ha & Hx). apply in_map_iff in Hx as (l & <- & Hl).
    exists a, l. by rewrite !list_elem_of_In.
  - intros (a & l & Ha & Hl & ->). exists a.
    rewrite <- list_elem_of_In. split; [done|].
    apply in_map_iff. exists l. by rewrite <- list_elem_of_In.
Qed.

(** The count that the loop body reads off the sorted list is the least
    global count among the labels of the instance. *)
Lemma sorted_first_min lc inst m :
  min_count lc inst m ->
  exists first,
    subscript (sort_by_count (inst_label_count lc inst)) 0 = Ok first
    /\ first.2 = m.
Proof.
  intros [(a & l & Ha & Hl & Hm) Hmin].
  destruct (sort_by_count_head (inst_label_count lc inst))
    as (x & Hx & Hin & Hle).
  { intros Hnil.
    assert (Hel : (l, counter_get lc l) ∈ inst_label_count lc inst)
      by (apply elem_of_inst_label_count; eauto).
    rewrite Hnil in Hel. by apply elem_of_nil in Hel. }
  exists x. split; [by apply subscript_0|].
  apply elem_of_inst_label_count in Hin as (a' & l' & Ha' & Hl' & ->).
  cbn. specialize (Hmin a' l' Ha' Hl').
  assert (Hel : (l, counter_get lc l) ∈ inst_label_count lc inst)
    by (apply elem_of_inst_label_count; eauto).
  apply Hle in Hel. cbn in Hel. lia.
Qed.

Lemma downsample_keeps_rare_step label_count threshold line s m :
  min_count label_count line m ->
  m < threshold ->
  downsample_line draws label_count threshold line s
  = ({| ds_out := ds_out s ++ [line];
        total_num := total_num s + 1;
        sample_num := sample_num s + 1;
        ds_rng := ds_rng s |}, Ok tt).
Proof.
  intros Hmin Hlt.
  destruct (sorted_first_min _ _ _ Hmin) as (first & Hfirst & Hm).
  unfold downsample_line, bind, lift, count_total, modify. rewrite Hfirst.
  cbn. rewrite Hm. by apply Z.ltb_lt in Hlt as ->.
Qed.

(** One pass of the loop body: an instance whose least label count is
    below the threshold is written and counted as sampled, whatever the generator would return:
    no draw is taken. *)
Theorem downsample_keeps_rare (label_count : gmap string Z) (threshold : Z)
  (line : instance) (s : ds_state) (m : Z) :
  min_count label_count line m ->
  m < threshold ->
  downsample_line draws label_count threshold line s
  = ({| ds_out := ds_out s ++ [line];
        total_num := total_num s + 1;
        sample_num := sample_num s + 1;
        ds_rng := ds_rng s |}, Ok tt).
Proof. apply downsample_keeps_rare_step. Qed.

Lemma downsample_draw_step label_count threshold line s m :
  min_count label_count line m ->
  threshold <= m ->
  m <> 0 ->
  let p :=
    fdiv (fadd (of_int threshold) (fpow (of_int (m - threshold)) point55))
      (of_int m) in
  let u := draws (ds_rng s) in
  downsample_line draws label_count threshold line s
  = ({| ds_out := if flt u p then ds_out s ++ [line] else ds_out s;
        total_num := total_num s + 1;
        sample_num := if flt u p then sample_num s + 1 else sample_num s;
        ds_rng := S (ds_rng s) |}, Ok tt).
Proof.
  intros Hmin Hge Hm0 p u.
  destruct (sorted_first_min _ _ _ Hmin) as (first & Hfirst & Hm).
  unfold downsample_line, bind, lift, count_total, modify, truediv.
  rewrite Hfirst. cbn. rewrite Hm. apply Z.ltb_ge in Hge as ->.
  apply Z.eqb_neq in Hm0 as ->.
  cbn [ds_out total_num sample_num ds_rng]. fold p u.
  by destruct (flt u p).
Qed.

(** One pass of the loop body, on an instance of [input_file] whose
    least label count [m] is at least the threshold: it takes one draw [u] and is
    written exactly when [u < (threshold + (m - threshold) ** .55) / m];
    [m] is positive, the division is defined. *)
Theorem downsample_keeps_with_probability (input_file : list instance)
  (threshold : Z) (line : instance) (s : ds_state) (m : Z) :
  line ∈ input_file ->
  min_count (count_labels input_file) line m ->
  threshold <= m ->
  let p :=
    fdiv (fadd (of_int threshold) (fpow (of_int (m - threshold)) point55))
      (of_int m) in
  let u := draws (ds_rng s) in
  downsample_line draws (count_labels input_file) threshold line s
  = ({| ds_out := if flt u p then ds_out s ++ [line] else ds_out s;
        total_num := total_num s + 1;
        sample_num := if flt u p then sample_num s + 1 else sample_num s;
        ds_rng := S (ds_rng s) |}, Ok tt).
Proof.
  intros Hline Hmin Hge. apply downsample_draw_step; [done..|].
  destruct Hmin as [(a & l & Ha & Hl & <-) _].
  pose proof (count_labels_pos _ _ _ _ Hline Ha Hl). lia.
Qed.

(** An instance without any label stops the loop: the subscript [[0]] of
    the empty list raises. *)
Lemma downsample_line_no_label label_count threshold line s :
  inst_label_count label_count line = [] ->
  downsample_line draws label_count threshold line s
  = ({| ds_out := ds_out s; total_num := total_num s + 1;
        sample_num := sample_num s; ds_rng := ds_rng s |},
     Raise IndexError).
Proof.
  intros Hnil. unfold downsample_line, bind, lift, count_total, modify.
  by rewrite Hnil.
Qed.

Lemma for_each_app {S A} (body : A -> M S unit) xs ys s :
  for_each (xs ++ ys) body s
  = bind (for_each xs body) (fun _ => for_each ys body) s.
Proof.
  revert s. induction xs as [|x xs IH]; intros s; cbn; [done|].
  unfold bind. destruct (body x s) as [s' [[]|e]]; [|done].
  by rewrite IH.
Qed.

(** One step of the loop never takes a line back. *)
Lemma downsample_line_extends label_count threshold line s :
  exists k,
    ds_out (downsample_line draws label_count threshold line s).1
    = ds_out s ++ k.
Proof.
  unfold downsample_line, bind, lift, count_total, modify, keep, ds_uniform,
    ret, truediv.
  destruct (subscript _ 0) as [first|e]; cbn; [|by exists []; rewrite app_nil_r].
  destruct (first.2 <? threshold); cbn; [by eexists|].
  destruct (first.2 =? 0); cbn; [by exists []; rewrite app_nil_r|].
  destruct (flt _ _); cbn; [by eexists|by exists []; rewrite app_nil_r].
Qed.

Lemma downsample_loop_extends label_count threshold lines s :
  exists k,
    ds_out (for_each lines (downsample_line draws label_count threshold) s).1
    = ds_out s ++ k.
Proof.
  revert s. induction lines as [|line lines IH]; intros s; cbn.
  - exists []. by rewrite app_nil_r.
  - unfold bind.
    destruct (downsample_line_extends label_count threshold line s)
      as [k Hk].
    destruct (downsample_line _ _ _ line s) as [s' [[]|e]]; cbn in *.
    + destruct (IH s') as [k' Hk']. exists (k ++ k').
      by rewrite Hk', Hk, app_assoc.
    + by exists k.
Qed.

(** The loop runs through every prefix of the file whose instances all
    carry a label, none of them with the count 0. *)
Lemma downsample_loop_Ok label_count threshold lines s :
  Forall (fun inst =>
            inst_label_count label_count inst <> []
            /\ forall x, x ∈ inst_label_count label_count inst -> x.2 <> 0)
    lines ->
  exists s',
    for_each lines (downsample_line draws label_count threshold) s
    = (s', Ok tt)
    /\ total_num s' = total_num s + len lines.
Proof.
  intros Hall. revert s.
  induction Hall as [|line lines [Hline Hpos] Hall IH]; intros s; cbn.
  - exists s. unfold ret, len. cbn. split; [done|lia].
  - unfold bind.
    destruct (sort_by_count_head _ Hline) as (x & Hx & Hin & _).
    apply Hpos in Hin. apply subscript_0 in Hx.
    assert (Hstep : exists s1,
               downsample_line draws label_count threshold line s
               = (s1, Ok tt) /\ total_num s1 = total_num s + 1).
    { unfold downsample_line, bind, lift, count_total, modify, keep,
        ds_uniform, ret, truediv. rewrite Hx. cbn.
      destruct (x.2 <? threshold); cbn; [by eexists|].
      apply Z.eqb_neq in Hin as ->.
      destruct (flt _ _); cbn; by eexists. }
    destruct Hstep as (s1 & -> & Ht1).
    destruct (IH s1) as (s' & -> & Ht'). exists s'. split; [done|].
    unfold len in *. cbn [length]. lia.
Qed.

(** In a run of [downsample], an instance below the threshold is in the
    output file, provided the loop reaches it: no instance before it is
    without labels. *)
Lemma downsample_rare_in_output pre line post threshold m :
  let input_file := pre ++ line :: post in
  let label_count := count_labels input_file in
  Forall (fun inst => inst_label_count label_count inst <> []) pre ->
  min_count label_count line m ->
  m < threshold ->
  line ∈ ds_out (downsample draws input_file threshold).1.
Proof.
  intros input_file label_count Hpre Hmin Hlt.
  unfold downsample. fold input_file. fold label_count.
  unfold input_file at 1. rewrite for_each_app. unfold bind at 1.
  assert (Hpre' : Forall (fun inst =>
            inst_label_count label_count inst <> []
            /\ forall x, x ∈ inst_label_count label_count inst -> x.2 <> 0)
            pre).
  { apply Forall_forall. intros inst Hinst. split.
    - by eapply (proj1 (Forall_forall _ _) Hpre).
    - intros x (a & l & Ha & Hl & ->)%elem_of_inst_label_count. cbn.
      assert (inst ∈ input_file)
        by (unfold input_file; apply elem_of_app; by left).
      assert (0 < counter_get (count_labels input_file) l)
        by by eapply count_labels_pos.
      unfold label_count. lia. }
  destruct (downsample_loop_Ok label_count threshold pre ds_init Hpre')
    as (s1 & -> & _).
  cbn [for_each]. unfold bind at 1.
  rewrite (downsample_keeps_rare_step _ _ _ _ _ Hmin Hlt).
  match goal with
  | |- context [for_each post ?b ?s2] =>
      destruct (downsample_loop_extends label_count threshold post s2)
        as [k Hk]
  end.
  rewrite Hk. cbn. rewrite !elem_of_app. left. right. constructor.
Qed.

End DownsampleFacts.

(** ** sample_cfet: the train/dev split *)

Section SplitFacts.

Import SampleCfet.

Context {F : Type} `{PyFloat F}.
Variable draws : nat -> F.

Lemma elem_of_infreq_labels (lc : gmap string Z) threshold l :
  l ∈ infreq_labels lc threshold
  <-> exists c, lc !! l = Some c /\ c < threshold.
Proof.
  unfold infreq_labels. rewrite elem_of_dom. unfold is_Some.
  setoid_rewrite map_lookup_filter_Some. cbn. naive_solver.
Qed.

(** For a line of the counted file, the test that [split] computes is the
    presence of a label whose count is below the threshold. *)
Lemma infreq_test corpus threshold line :
  line ∈ corpus ->
  existsb (fun label =>
             bool_decide (label ∈ infreq_labels (count_labels corpus) threshold))
    (flat_map labels (annotations line)) = true
  <-> has_rare_label (count_labels corpus) threshold line.
Proof.
  intros Hline. rewrite existsb_exists. unfold has_rare_label. split.
  - intros (l & Hl & Hd). apply in_flat_map in Hl as (a & Ha & Hl).
    apply bool_decide_eq_true in Hd.
    apply elem_of_infreq_labels in Hd as (c & Hc & Hlt).
    exists a, l. rewrite !list_elem_of_In. split; [done|]. split; [done|].
    unfold counter_get. by rewrite Hc.
  - intros (a & l & Ha & Hl & Hlt). exists l. split.
    + apply in_flat_map. exists a. by rewrite <- !list_elem_of_In.
    + apply bool_decide_eq_true, elem_of_infreq_labels.
      exists (occurrences l corpus). rewrite count_labels_get in Hlt.
      split; [|done]. rewrite count_labels_lookup. unfold stored.
      rewrite decide_True; [done|]. by eapply occurrences_pos.
Qed.

Lemma split_line_Permutation infreq rate s line :
  Permutation
    (train (split_line draws infreq rate s line)
     ++ dev (split_line draws infreq rate s line))
    ((train s ++ dev s) ++ [line]).
Proof.
  unfold split_line. destruct (existsb _ _); [|destruct (flt _ _)]; cbn.
  - rewrite <- !app_assoc. apply Permutation_app_head, Permutation_app_comm.
  - rewrite <- !app_assoc. apply Permutation_app_head, Permutation_app_comm.
  - by rewrite app_assoc.
Qed.

Lemma split_loop_Permutation infreq rate lines s :
  Permutation
    (train (fold_left (split_line draws infreq rate) lines s)
     ++ dev (fold_left (split_line draws infreq rate) lines s))
    ((train s ++ dev s) ++ lines).
Proof.
  revert s. induction lines as [|line lines IH]; intros s; cbn.
  - by rewrite app_nil_r.
  - rewrite IH, split_line_Permutation. by rewrite <- app_assoc.
Qed.

(** C8. [split] is the loop of [split_line] over the file, from empty
    outputs.  The two outputs together hold every line of the file once.
    A line with a label whose count in the file is below the threshold
    goes to the train output, and no draw is taken; any other line takes
    one draw [u] and goes to the dev output when [u <= rate], to the train
    output otherwise. *)
Theorem split_routes_every_instance (input_file : list instance)
  (threshold : Z) (rate : F) :
  let label_count := count_labels input_file in
  let run lines :=
    fold_left (split_line draws (infreq_labels label_count threshold) rate)
      lines sp_init in
  split draws input_file threshold rate = run input_file
  /\ Permutation (train (run input_file) ++ dev (run input_file)) input_file
  /\ forall i line,
       input_file !! i = Some line ->
       let s := run (take i input_file) in
       let u := draws (sp_rng s) in
       (has_rare_label label_count threshold line ->
        run (take (S i) input_file)
        = {| train := train s ++ [line]; dev := dev s; sp_rng := sp_rng s |})
       /\ (~ has_rare_label label_count threshold line ->
           run (take (S i) input_file)
           = if fle u rate then
               {| train := train s; dev := dev s ++ [line];
                  sp_rng := S (sp_rng s) |}
             else
               {| train := train s ++ [line]; dev := dev s;
                  sp_rng := S (sp_rng s) |}).
Proof.
  intros label_count run. split; [reflexivity|]. split.
  - unfold run. by rewrite split_loop_Permutation.
  - intros i line Hi s u.
    assert (Hstep : run (take (S i) input_file)
                    = split_line draws (infreq_labels label_count threshold)
                        rate s line).
    { unfold run, s. by rewrite (take_S_r _ _ _ Hi), fold_left_app. }
    assert (Hline : line ∈ input_file) by by eapply list_elem_of_lookup_2.
    pose proof (infreq_test input_file threshold line Hline) as Htest.
    fold label_count in Htest. rewrite Hstep. unfold split_line.
    split; intros Hrare.
    + apply Htest in Hrare. by rewrite Hrare.
    + destruct (existsb _ _); [by destruct Hrare; apply Htest|].
      fold u. rewrite fle_flt. by destruct (flt rate u).
Qed.

End SplitFacts.

(** ** wikiann2cfet: mention ids *)

Section ExtractFacts.

Import SampleCfet Wikiann2Cfet.

Variable entity_type_map : gmap string (list string).
Variable type_set : gset string.

Lemma collect_link_entities entities title_num l :
  (collect_link entity_type_map type_set (entities, title_num) l).1
  = entities ++ option_list (link_entity entity_type_map type_set l).
Proof.
  unfold collect_link, link_entity.
  destruct (link_title l) as [title|]; cbn; [|by rewrite app_nil_r].
  destruct (entity_type_map !! _) as [types|]; cbn; [|by rewrite app_nil_r].
  destruct (filter _ types); cbn; [by rewrite app_nil_r|done].
Qed.

Lemma collect_links_entities links entities title_num :
  (fold_left (collect_link entity_type_map type_set) links
     (entities, title_num)).1
  = entities ++ omap (link_entity entity_type_map type_set) links.
Proof.
  revert entities title_num.
  induction links as [|l links IH]; intros entities title_num; cbn [fold_left].
  - by rewrite app_nil_r.
  - pose proof (collect_link_entities entities title_num l) as Hl.
    destruct (collect_link _ _ _ l) as [ents tn]. cbn in Hl. subst ents.
    rewrite IH, <- app_assoc. f_equal. cbn.
    by destruct (link_entity _ _ l).
Qed.

Lemma offset_fold_keys (l : list (Z * token)) (sm em : gmap Z Z) k :
  let r :=
    fold_left
      (fun '(sm, em) '(token_idx, token) =>
         (<[tok_start token := token_idx]> sm,
          <[tok_end token := token_idx + 1]> em))
      l (sm, em) in
  (is_Some (r.1 !! k)
   <-> is_Some (sm !! k) \/ exists p, p ∈ l /\ tok_start p.2 = k)
  /\ (is_Some (r.2 !! k)
      <-> is_Some (em !! k) \/ exists p, p ∈ l /\ tok_end p.2 = k).
Proof.
  revert sm em. induction l as [|[i t] l IH]; intros sm em; cbn.
  - split; (split; [by left|intros [?|(p & Hp & _)]; [done|]]);
      by apply elem_of_nil in Hp.
  - destruct (IH (<[tok_start t := i]> sm) (<[tok_end t := i + 1]> em))
      as [IHs IHe].
    split; [rewrite IHs|rewrite IHe]; rewrite lookup_insert_is_Some;
      setoid_rewrite elem_of_cons.
    + split.
      * intros [[Heq|[_ Hs]]|(p & Hp & Hk)]; [right|by left|right].
        -- exists (i, t). by split; [left|].
        -- exists p. by split; [right|].
      * intros [Hs|(p & [->|Hp] & Hk)].
        -- destruct (decide (tok_start t = k)); left; [by left|by right].
        -- left. by left.
        -- right. by exists p.
    + split.
      * intros [[Heq|[_ Hs]]|(p & Hp & Hk)]; [right|by left|right].
        -- exists (i, t). by split; [left|].
        -- exists p. by split; [right|].
      * intros [Hs|(p & [->|Hp] & Hk)].
        -- destruct (decide (tok_end t = k)); left; [by left|by right].
        -- left. by left.
        -- right. by exists p.
Qed.

Lemma offset_maps_aligned tokens e :
  aligned tokens e = true
  <-> is_Some ((offset_maps tokens).1 !! e_start e)
      /\ is_Some ((offset_maps tokens).2 !! e_end e).
Proof.
  unfold aligned, offset_maps.
  set (l := imap (fun i t => (Z.of_nat i, t)) tokens).
  destruct (offset_fold_keys l ∅ ∅ (e_start e)) as [Hs _].
  destruct (offset_fold_keys l ∅ ∅ (e_end e)) as [_ He].
  cbn zeta in Hs, He. rewrite Hs, He, andb_true_iff, !existsb_exists.
  assert (Hl : forall P : token -> Prop,
             (exists p, p ∈ l /\ P p.2) <-> exists t, In t tokens /\ P t).
  { intros P. unfold l. split.
    - intros (p & Hp & HP).
      apply elem_of_lookup_imap in Hp as (i & t & -> & Ht).
      exists t. split; [|done].
      by eapply list_elem_of_In, list_elem_of_lookup_2.
    - intros (t & Ht & HP).
      apply list_elem_of_In, list_elem_of_lookup in Ht as [i Hi].
      exists (Z.of_nat i, t). split; [|done].
      apply elem_of_lookup_imap. by exists i, t. }
  rewrite !lookup_empty.
  rewrite (Hl (fun t => tok_start t = e_start e)).
  rewrite (Hl (fun t => tok_end t = e_end e)).
  setoid_rewrite Z.eqb_eq.
  split; [intros [? ?]; by split; right|].
  intros [[[? [=]]|?] [[? [=]]|?]]. by split.
Qed.

(** The loop over the entities of one document: from a counter value
    [c], the annotations it appends are those of the aligned entities, in
    order, and the [k]-th of them is numbered [c + k]. *)
Lemma annotate_fold doc_id sm em tokens ents anns dmc nm :
  (forall e, aligned tokens e = true
             <-> is_Some (sm !! e_start e) /\ is_Some (em !! e_end e)) ->
  let c := counter_get dmc doc_id in
  let valid := List.filter (aligned tokens) ents in
  exists new dmc' nm',
    fold_left (annotate_entity doc_id sm em) ents (anns, dmc, nm)
    = (anns ++ new, dmc', nm')
    /\ length new = length valid
    /\ (forall k a, new !! k = Some a ->
          mention_id a = format_mention_id doc_id (c + Z.of_nat k)
          /\ exists e, valid !! k = Some e
                       /\ mention a = e_text e /\ labels a = e_types e)
    /\ counter_get dmc' doc_id = c + Z.of_nat (length valid)
    /\ (forall id', id' <> doc_id -> dmc' !! id' = dmc !! id').
Proof.
  intros Hal. revert anns dmc nm.
  induction ents as [|e ents IH]; intros anns dmc nm; cbn zeta.
  - exists [], dmc, nm. cbn. rewrite app_nil_r.
    split; [done|]. split; [done|]. split; [done|]. split; [lia|done].
  - cbn [fold_left List.filter]. unfold annotate_entity at 2.
    destruct (aligned tokens e) eqn:He.
    + apply Hal in He as [[st Hst] [en Hen]]. rewrite Hst, Hen.
      set (a := {| mention := e_text e |}).
      set (dmc1 := <[doc_id := counter_get dmc doc_id + 1]> dmc).
      destruct (IH (anns ++ [a]) dmc1 nm)
        as (new & dmc' & nm' & Hfold & Hlen & Hnew & Hc & Hother).
      assert (Hc1 : counter_get dmc1 doc_id = counter_get dmc doc_id + 1).
      { unfold counter_get at 1, dmc1. by rewrite lookup_insert_eq. }
      exists (a :: new), dmc', nm'. rewrite Hfold, <- app_assoc.
      split; [done|]. split; [cbn; by rewrite Hlen|]. split; [|split].
      * intros [|k] b Hb; cbn in Hb.
        -- inversion Hb; subst b. split; [cbn; by rewrite Z.add_0_r|].
           exists e. by cbn.
        -- destruct (Hnew k b Hb) as [Hid Hv]. split; [|done].
           rewrite Hid, Hc1. f_equal. lia.
      * rewrite Hc, Hc1. cbn [length]. lia.
      * intros id' Hne. rewrite (Hother id' Hne). unfold dmc1.
        by rewrite lookup_insert_ne.
    + assert (Hno : match sm !! e_start e, em !! e_end e with
                    | Some _, Some _ => False
                    | _, _ => True
                    end).
      { destruct (sm !! e_start e) eqn:Hs; [|done].
        destruct (em !! e_end e) eqn:Hen; [|done].
        assert (aligned tokens e = true) by (apply Hal; rewrite Hs, Hen; eauto).
        congruence. }
      destruct (IH anns dmc (nm + 1))
        as (new & dmc' & nm' & Hfold & Hrest).
      exists new, dmc', nm'. split; [|done]. rewrite <- Hfold.
      destruct (sm !! e_start e); [destruct (em !! e_end e)|]; done.
Qed.

(** One document, from any state. *)
Lemma extract_doc_spec s d :
  let s' := extract_doc entity_type_map type_set s d in
  let c := counter_get (doc_mention_count s) (doc_id d) in
  let valid := valid_entities entity_type_map type_set d in
  exists anns,
    out s'
    = out s ++ match anns with
               | [] => []
               | _ :: _ => [{| tokens := map tok_text (doc_tokens d);
                               annotations := anns |}]
               end
    /\ length anns = length valid
    /\ (forall k a, anns !! k = Some a ->
          mention_id a = format_mention_id (doc_id d) (c + Z.of_nat k)
          /\ exists e, valid !! k = Some e
                       /\ mention a = e_text e /\ labels a = e_types e)
    /\ counter_get (doc_mention_count s') (doc_id d)
       = c + Z.of_nat (length valid)
    /\ (forall id', id' <> doc_id d ->
          doc_mention_count s' !! id' = doc_mention_count s !! id').
Proof.
  cbn zeta. unfold extract_doc, valid_entities.
  pose proof (collect_links_entities (doc_links d) [] (title_num s)) as Hents.
  destruct (fold_left _ (doc_links d) _) as [entities tn].
  cbn in Hents. rewrite <- Hents. clear Hents.
  destruct entities as [|e0 ents].
  - exists []. cbn. rewrite app_nil_r, Z.add_0_r. repeat split; done.
  - pose proof (offset_maps_aligned (doc_tokens d)) as Hal.
    destruct (offset_maps (doc_tokens d)) as [sm em]. cbn [fst snd] in Hal.
    destruct (annotate_fold (doc_id d) sm em (doc_tokens d) (e0 :: ents) []
                (doc_mention_count s) (not_matched_num s) Hal)
      as (new & dmc' & nm' & Hfold & Hlen & Hnew & Hc & Hother).
    rewrite Hfold. cbn [app]. exists new.
    destruct new as [|a new]; cbn [out doc_mention_count].
    + by rewrite app_nil_r.
    + done.
Qed.

(** The counter of an id after a run: what it was, plus one per
    annotation created for the documents with that id. *)
Lemma extract_data_counter id pre s :
  counter_get
    (doc_mention_count
       (fold_left (extract_doc entity_type_map type_set) pre s)) id
  = counter_get (doc_mention_count s) id
    + numbered_before entity_type_map type_set id pre.
Proof.
  unfold numbered_before, len. revert s.
  induction pre as [|d pre IH]; intros s; cbn [fold_left].
  - cbn. lia.
  - rewrite IH.
    destruct (extract_doc_spec s d) as (_ & _ & _ & _ & Hc & Hother).
    destruct (decide (doc_id d = id)) as [<-|Hne].
    + rewrite filter_cons_True by done. cbn [flat_map].
      rewrite Hc, length_app. lia.
    + rewrite filter_cons_False by done.
      f_equal.
      unfold counter_get. by rewrite Hother.
Qed.

Lemma numbered_before_fresh id pre :
  id ∉ map doc_id pre -> numbered_before entity_type_map type_set id pre = 0.
Proof.
  intros Hid. unfold numbered_before.
  replace (filter (fun d => doc_id d = id) pre) with (@nil doc); [done|].
  symmetry. induction pre as [|d pre IH]; [done|].
  cbn in Hid. apply not_elem_of_cons in Hid as [Hne Hid].
  rewrite filter_cons_False by done. by apply IH.
Qed.

(** C10, amended. In a run, the output line of a document, if it has one, carries
    the annotations of its valid links (title present and typed, a type
    in the ontology, span aligned with token boundaries) in link order.
    The counter behind the mention ids is the one of the document id: the
    [k]-th annotation of the document has the mention id [doc_id-(c+k)],
    where [c] counts the annotations created earlier in the run under the
    same id, and the counter ends at [c] plus the number of annotations.
    For an id that has not occurred before, [c] is 0: the suffixes are
    0, 1, ..., n-1.  A link that yields no annotation takes no number. *)
Theorem mention_ids_are_sequential (pre : list doc) (d : doc) :
  let s := extract_data entity_type_map type_set pre in
  let s' := extract_doc entity_type_map type_set s d in
  let valid := valid_entities entity_type_map type_set d in
  let c := numbered_before entity_type_map type_set (doc_id d) pre in
  exists anns,
    out s'
    = out s ++ match anns with
               | [] => []
               | _ :: _ => [{| tokens := map tok_text (doc_tokens d);
                               annotations := anns |}]
               end
    /\ length anns = length valid
    /\ (forall k a, anns !! k = Some a ->
          mention_id a = doc_id d +:+ "-" +:+ pretty (c + Z.of_nat k)
          /\ exists e, valid !! k = Some e
                       /\ mention a = e_text e /\ labels a = e_types e)
    /\ counter_get (doc_mention_count s') (doc_id d)
       = c + Z.of_nat (length valid)
    /\ (doc_id d ∉ map doc_id pre -> c = 0).
Proof.
  intros s s' valid c.
  destruct (extract_doc_spec s d) as (anns & Hout & Hlen & Hanns & Hc & _).
  assert (H0 : counter_get (doc_mention_count s) (doc_id d) = c).
  { unfold s, extract_data. rewrite extract_data_counter.
    unfold counter_get, ex_init. cbn. by rewrite lookup_empty. }
  rewrite H0 in Hanns, Hc. exists anns.
  split; [done|]. split; [done|]. split; [|split; [exact Hc|]].
  - intros k a Ha. destruct (Hanns k a Ha) as [Hid He]. by split.
  - apply numbered_before_fresh.
Qed.

End ExtractFacts.

(** ** The theorems at concrete inputs *)

Section Instances.

Import Cfet2Bfet SampleCfet Wikiann2Cfet Examples.

Lemma convert_raises_TypeError_witness :
  create_tokenizer load_chars load_chars "bert-base-cased" None
  = Ok char_tokenizer
  /\ convert load_chars load_chars [two_tokens; one_token]
       "bert-base-cased" None 128
     = (init_state, Raise TypeError).
Proof.
  split; [reflexivity|].
  apply (convert_raises_TypeError load_chars load_chars two_tokens
           [one_token] "bert-base-cased" None 128 char_tokenizer).
  reflexivity.
Defined.

Lemma elem_of_labelled ls a :
  a ∈ annotations (labelled ls) -> labels a = ls.
Proof. cbn. intros Ha. by apply list_elem_of_singleton in Ha as ->. Qed.

Lemma min_count_AB : min_count (count_labels corpus_AB_B) (labelled ["A"; "B"]) 1.
Proof.
  split.
  - exists (span 0 1 ["A"; "B"]), "A".
    split; [cbn; constructor|]. split; [cbn; constructor|reflexivity].
  - intros a l Ha Hl. rewrite (elem_of_labelled _ _ Ha) in Hl.
    apply elem_of_cons in Hl as [->|Hl]; [by vm_compute|].
    apply list_elem_of_singleton in Hl as ->. by vm_compute.
Qed.

Lemma min_count_B : min_count (count_labels corpus_AB_B) (labelled ["B"]) 2.
Proof.
  split.
  - exists (span 0 1 ["B"]), "B".
    split; [cbn; constructor|]. split; [cbn; constructor|reflexivity].
  - intros a l Ha Hl. rewrite (elem_of_labelled _ _ Ha) in Hl.
    apply list_elem_of_singleton in Hl as ->. by vm_compute.
Qed.

Lemma downsample_keeps_rare_witness :
  min_count (count_labels corpus_AB_B) (labelled ["A"; "B"]) 1
  /\ 1 < 2
  /\ downsample_line half (count_labels corpus_AB_B) 2 (labelled ["A"; "B"])
       ds_init
     = ({| ds_out := [labelled ["A"; "B"]]; total_num := 1;
           sample_num := 1; ds_rng := 0 |}, Ok tt).
Proof.
  split; [exact min_count_AB|]. split; [lia|].
  apply (downsample_keeps_rare half (count_labels corpus_AB_B) 2
           (labelled ["A"; "B"]) ds_init 1 min_count_AB).
  lia.
Defined.

Lemma downsample_keeps_with_probability_witness :
  labelled ["B"] ∈ corpus_AB_B
  /\ min_count (count_labels corpus_AB_B) (labelled ["B"]) 2
  /\ 1 <= 2
  /\ downsample_line half (count_labels corpus_AB_B) 1 (labelled ["B"])
       ds_init
     = ({| ds_out := [labelled ["B"]]; total_num := 1;
           sample_num := 1; ds_rng := 1 |}, Ok tt).
Proof.
  assert (Hin : labelled ["B"] ∈ corpus_AB_B)
    by (unfold corpus_AB_B; apply elem_of_cons; right; constructor).
  split; [exact Hin|]. split; [exact min_count_B|]. split; [lia|].
  refine (eq_trans
            (downsample_keeps_with_probability half corpus_AB_B 1
               (labelled ["B"]) ds_init 2 Hin min_count_B _) _);
    [lia|reflexivity].
Defined.

Lemma mention_ids_are_sequential_witness :
  exists anns,
    out (extract_data types_of ontology [other_doc; cat_doc])
    = out (extract_data types_of ontology [other_doc])
      ++ match anns with
         | [] => []
         | _ :: _ => [{| tokens := map tok_text (doc_tokens cat_doc);
                         annotations := anns |}]
         end
    /\ length anns = 2%nat
    /\ (forall k a, anns !! k = Some a ->
          mention_id a = "d1" +:+ "-" +:+ pretty (0 + Z.of_nat k)).
Proof.
  destruct (mention_ids_are_sequential types_of ontology [other_doc] cat_doc)
    as (anns & Hout & Hlen & Hanns & _).
  exists anns. split; [exact Hout|]. split; [exact Hlen|].
  intros k a Ha. by destruct (Hanns k a Ha).
Defined.

(** The examples of the specification, run. *)

Example offset_round_trip :
  out (extract_data types_of ontology [other_doc])
  = [{| tokens := ["The"; "cat"; "sat"];
        annotations :=
          [{| mention := "cat"; mention_id := "d0-0"; start := 1; end_ := 2;
              labels := ["Animal"] |}] |}].
Proof. by vm_compute. Qed.

Example mention_id_sequencing :
  extract_data types_of ontology [other_doc; cat_doc]
  = {| doc_mention_count := {[ "d0" := 1; "d1" := 2 ]};
       valid_num := 2; entity_num := 2; not_matched_num := 1;
       title_num := 4;
       out :=
         [{| tokens := ["The"; "cat"; "sat"];
             annotations :=
               [{| mention := "cat"; mention_id := "d0-0"; start := 1;
                   end_ := 2; labels := ["Animal"] |}] |};
          {| tokens := ["The"; "cat"; "sat"];
             annotations :=
               [{| mention := "cat"; mention_id := "d1-0"; start := 1;
                   end_ := 2; labels := ["Animal"] |};
                {| mention := "sat"; mention_id := "d1-1"; start := 2;
                   end_ := 3; labels := ["Posture"] |}] |}] |}.
Proof. by vm_compute. Qed.

Example tokenize_two_tokens :
  tokenize ["ab"; "c"] char_tokenizer = (["a"; "b"; "c"], [(0, 2); (2, 3)]).
Proof. reflexivity. Qed.

Example downsample_AB_B :
  downsample half corpus_AB_B 1
  = ({| ds_out := corpus_AB_B; total_num := 2; sample_num := 2;
        ds_rng := 2 |}, Ok tt).
Proof. by vm_compute. Qed.

Example split_AB_B :
  split half corpus_AB_B 2 ((1 # 100)%Q)
  = {| train := corpus_AB_B; dev := []; sp_rng := 1 |}.
Proof. by vm_compute. Qed.

Example split_AB_B_dev :
  split half corpus_AB_B 2 ((3 # 4)%Q)
  = {| train := [labelled ["A"; "B"]]; dev := [labelled ["B"]];
       sp_rng := 1 |}.
Proof. by vm_compute. Qed.

End Instances.

(** * Further properties of the scripts *)

(** ** cfet2bfet *)

Section ConvertMore.

Import Cfet2Bfet Examples.

Variable bert roberta : string -> option string -> result tokenizer.

(** X1. The outcome of [convert] is settled before any line is converted: an
    exception of [create_tokenizer] comes first; otherwise the run ends
    normally on an empty file only.  In every case the state is the
    initial one. *)
Theorem convert_outcome (input_file : list instance) (bert_model : string)
  (bert_cache_dir : option string) (max_len : Z) :
  convert bert roberta input_file bert_model bert_cache_dir max_len
  = (init_state,
     match create_tokenizer bert roberta bert_model bert_cache_dir with
     | Raise e => Raise e
     | Ok _ =>
         match input_file with
         | [] => Ok tt
         | _ :: _ => Raise TypeError
         end
     end).
Proof.
  unfold convert, bind, lift.
  destruct (create_tokenizer _ _ _ _) as [tk|e]; [|done].
  destruct input_file as [|line rest]; [done|].
  by rewrite (for_each_raise _ TypeError).
Qed.

Lemma subscript_defined {A} (l : list A) i :
  (exists x, subscript l i = Ok x) <-> - len l <= i < len l.
Proof.
  unfold subscript, len.
  set (n := Z.of_nat (length l)).
  set (j := if i <? 0 then i + n else i).
  assert (Hj : 0 <= j < n <-> - n <= i < n).
  { unfold j. destruct (i <? 0) eqn:Hneg.
    - apply Z.ltb_lt in Hneg. lia.
    - apply Z.ltb_ge in Hneg. lia. }
  destruct ((0 <=? j) && (j <? n)) eqn:Hin.
  - apply andb_prop in Hin as [H0 H1].
    apply Z.leb_le in H0. apply Z.ltb_lt in H1.
    destruct (lookup_lt_is_Some_2 l (Z.to_nat j)) as [x Hx]; [lia|].
    rewrite Hx. split; [intros _; lia|by exists x].
  - split; [by intros [x ?]|]. intros Hi. apply Hj in Hi.
    apply andb_false_iff in Hin as [H0|H1].
    + apply Z.leb_gt in H0. lia.
    + apply Z.ltb_ge in H1. lia.
Qed.

Lemma subscript_undefined {A} (l : list A) i :
  ~ (- len l <= i < len l) -> subscript l i = Raise IndexError.
Proof.
  intros Hi. destruct (subscript l i) as [x|e] eqn:Hs.
  - destruct Hi. apply subscript_defined. by exists x.
  - by rewrite (subscript_Raise _ _ _ Hs).
Qed.

(** X2. Lines 108-109 succeed exactly when both [start] and [end] lie in
    [-len, len) of the table: a negative index is not rejected, it reads
    from the end of the table.  Otherwise they raise [IndexError]. *)
Theorem add_piece_offsets_defined (table : list (Z * Z)) (a : annotation) :
  ((exists r, add_piece_offsets table a = Ok r)
   <-> (- len table <= start a < len table
        /\ - len table <= end_ a < len table))
  /\ ((forall r, add_piece_offsets table a <> Ok r)
      -> add_piece_offsets table a = Raise IndexError).
Proof.
  split.
  - rewrite <- !subscript_defined. unfold add_piece_offsets. split.
    + intros [r Hr].
      destruct (subscript table (start a)) as [[sb se]|]; [|done].
      destruct (subscript table (end_ a)) as [[eb ee]|]; [|done].
      split; eauto.
    + intros [[[sb se] ->] [[eb ee] ->]]. eauto.
  - intros Hno. unfold add_piece_offsets in *.
    destruct (subscript table (start a)) as [[sb se]|e] eqn:Hs.
    + destruct (subscript table (end_ a)) as [[eb ee]|e] eqn:He.
      * by destruct (Hno _ eq_refl).
      * by rewrite (subscript_Raise _ _ _ He).
    + by rewrite (subscript_Raise _ _ _ Hs).
Qed.

Lemma subscript_nonneg {A} (l : list A) i x :
  0 <= i -> l !! Z.to_nat i = Some x -> subscript l i = Ok x.
Proof.
  intros Hi Hx. unfold subscript.
  pose proof (lookup_lt_Some _ _ _ Hx) as Hlt.
  destruct (i <? 0) eqn:Hneg; [apply Z.ltb_lt in Hneg; lia|].
  rewrite Hx.
  destruct (0 <=? i) eqn:H0; [|apply Z.leb_gt in H0; lia].
  destruct (i <? Z.of_nat (length l)) eqn:H1; [done|].
  apply Z.ltb_ge in H1. lia.
Qed.

Lemma table_from_entry offset pl i pieces :
  pl !! i = Some pieces ->
  table_from offset pl !! i
  = Some (offset + len (concat (take i pl)),
          offset + len (concat (take (S i) pl))).
Proof.
  intros Hi.
  destruct (lookup_lt_is_Some_2 (table_from offset pl) i) as [[b e] Hbe].
  { rewrite table_from_length. by eapply lookup_lt_Some. }
  rewrite Hbe. destruct (table_from_lookup _ _ _ _ _ Hbe) as (q & Hq & -> & ->).
  rewrite (take_S_r _ _ _ Hq), concat_app, len_app. cbn.
  rewrite app_nil_r. do 2 f_equal. lia.
Qed.

(** X3. [tokenize] followed by lines 108-109, for indices that are token
    positions: the entry stored under [piece_start] begins at the number
    of pieces before token [start], the one under [piece_end] at the
    number of pieces before token [end], so the two first components
    delimit the pieces of the tokens [start .. end-1]. *)
Theorem tokenize_then_add_piece_offsets (tokens : list string)
  (tokenizer : tokenizer) (a : annotation) :
  0 <= start a < len tokens ->
  0 <= end_ a < len tokens ->
  add_piece_offsets (tokenize tokens tokenizer).2 a
  = Ok {| cfet := a;
          piece_start :=
            PyTuple (pieces_before tokenizer tokens (start a))
              (pieces_before tokenizer tokens (start a + 1));
          piece_end :=
            PyTuple (pieces_before tokenizer tokens (end_ a))
              (pieces_before tokenizer tokens (end_ a + 1)) |}.
Proof.
  intros Hs He. rewrite tokenize_spec. cbn [snd].
  unfold add_piece_offsets, pieces_before, len in *.
  set (pl := map (tk_tokenize tokenizer) tokens).
  assert (Hentry : forall i, 0 <= i < Z.of_nat (length tokens) ->
            subscript (table_from 0 pl) i
            = Ok (Py.len (concat (map (tk_tokenize tokenizer)
                                    (take (Z.to_nat i) tokens))),
                  Py.len (concat (map (tk_tokenize tokenizer)
                                    (take (Z.to_nat (i + 1)) tokens))))).
  { intros i Hi.
    destruct (lookup_lt_is_Some_2 pl (Z.to_nat i)) as [q Hq].
    { unfold pl. rewrite length_map. lia. }
    apply subscript_nonneg; [lia|].
    rewrite (table_from_entry _ _ _ _ Hq). unfold pl.
    rewrite <- !fmap_take, !Z.add_0_l.
    by replace (Z.to_nat (i + 1)) with (S (Z.to_nat i)) by lia. }
  by rewrite (Hentry _ Hs), (Hentry _ He).
Qed.

Lemma table_from_shift offset d pl :
  table_from (offset + d) pl = map (shift d) (table_from offset pl).
Proof.
  revert offset. induction pl as [|p pl IH]; intros offset; cbn; [done|].
  unfold shift at 1. cbn. f_equal; [f_equal; lia|].
  replace (offset + d + len p) with (offset + len p + d) by lia. apply IH.
Qed.

Lemma table_from_app offset pl1 pl2 :
  table_from offset (pl1 ++ pl2)
  = table_from offset pl1 ++ table_from (offset + len (concat pl1)) pl2.
Proof.
  revert offset. induction pl1 as [|p pl1 IH]; intros offset; cbn.
  - unfold len. cbn. by rewrite Z.add_0_r.
  - rewrite IH, len_app. do 3 f_equal. lia.
Qed.

(** X4. [tokenize] on a concatenation of token lists: the pieces are
    concatenated, and the table of the second list follows the table of
    the first, moved by the number of pieces of the first. *)
Theorem tokenize_app (tokens1 tokens2 : list string) (tokenizer : tokenizer) :
  tokenize (tokens1 ++ tokens2) tokenizer
  = ((tokenize tokens1 tokenizer).1 ++ (tokenize tokens2 tokenizer).1,
     (tokenize tokens1 tokenizer).2
     ++ map (shift (len (tokenize tokens1 tokenizer).1))
          (tokenize tokens2 tokenizer).2).
Proof.
  rewrite !tokenize_spec. cbn [fst snd].
  rewrite map_app, concat_app, table_from_app. do 2 f_equal.
  by rewrite <- table_from_shift.
Qed.

Lemma map_result_Ok {A B} (f : A -> result B) xs ys :
  map_result f xs = Ok ys -> Forall2 (fun x y => f x = Ok y) xs ys.
Proof.
  revert ys. induction xs as [|x xs IH]; intros ys; cbn.
  - intros [= <-]. constructor.
  - destruct (f x) as [y|] eqn:Hy; [|done].
    destruct (map_result f xs) as [ys'|]; [|done].
    intros [= <-]. constructor; [done|by apply IH].
Qed.

Lemma map_result_Raise {A B} (f : A -> result B) xs e :
  map_result f xs = Raise e -> exists x, x ∈ xs /\ f x = Raise e.
Proof.
  induction xs as [|x xs IH]; cbn; [done|].
  destruct (f x) as [y|e'] eqn:Hy.
  - destruct (map_result f xs) as [ys'|e'']; [done|].
    intros [= ->]. destruct IH as (x' & Hx' & Hf); [done|].
    exists x'. split; [by constructor|done].
  - intros [= ->]. exists x. split; [constructor|done].
Qed.

Lemma add_piece_offsets_cfet table a r :
  add_piece_offsets table a = Ok r -> cfet r = a.
Proof.
  unfold add_piece_offsets.
  destruct (subscript table (start a)) as [[sb se]|]; [|done].
  destruct (subscript table (end_ a)) as [[eb ee]|]; [|done].
  by intros [= <-].
Qed.

(** X5. Lines 98-111 are all-or-nothing.  An instance with more than
    [max_len - 2] pieces is counted and nothing is written, whatever
    [encode] or its annotations would do.  Otherwise, an exception of
    [encode] ends the pass with the state as it was; if [encode] returns,
    either a subscript raises [IndexError], again with the state as it
    was, or one line is written that has the tokens of the instance, its
    annotations in order with their CFET fields unchanged, and the ids
    that [encode] returned. *)
Theorem convert_rest_outcome (tokenizer : tokenizer) (max_len : Z)
  (inst : instance) (pcs : list string) (table : list (Z * Z))
  (s : conv_state) :
  let r := convert_rest tokenizer max_len inst (pcs, table) s in
  (len pcs > max_len - 2
   /\ r = ({| written := written s;
              overlength_num := overlength_num s + 1 |}, Ok tt))
  \/ (len pcs <= max_len - 2
      /\ exists e,
           tk_encode tokenizer pcs true max_len = Raise e
           /\ r = (s, Raise e))
  \/ (len pcs <= max_len - 2
      /\ exists ids,
           tk_encode tokenizer pcs true max_len = Ok ids
           /\ (r = (s, Raise IndexError)
               \/ exists l,
                    r = ({| written := written s ++ [l];
                            overlength_num := overlength_num s |}, Ok tt)
                    /\ b_tokens l = tokens inst
                    /\ map cfet (b_annotations l) = annotations inst
                    /\ pieces l = ids)).
Proof.
  cbn zeta. rewrite convert_rest_cases.
  destruct (len pcs >? max_len - 2) eqn:Hlen.
  - left. split; [|done]. apply Z.gtb_lt in Hlen. lia.
  - assert (len pcs <= max_len - 2).
    { destruct (Z.gtb_spec (len pcs) (max_len - 2)); [done|lia]. }
    right. destruct (tk_encode tokenizer pcs true max_len) as [ids|e].
    2:{ left. split; [done|]. by exists e. }
    right. split; [done|]. exists ids. split; [done|].
    destruct (map_result _ _) as [anns|e] eqn:Hmap.
    + right. eexists. split; [done|]. cbn.
      split; [done|]. split; [|done].
      apply map_result_Ok in Hmap.
      induction Hmap as [|a r anns' rs Har _ IH]; cbn; [done|].
      by rewrite IH, (add_piece_offsets_cfet _ _ _ Har).
    + left.
      apply map_result_Raise in Hmap as (a & _ & Ha).
      assert (e = IndexError) as ->; [|done].
      unfold add_piece_offsets in Ha.
      destruct (subscript table (start a)) as [[sb se]|e1] eqn:Hs.
      * destruct (subscript table (end_ a)) as [[eb ee]|e2] eqn:He; [done|].
        injection Ha as <-. by eapply subscript_Raise.
      * injection Ha as <-. by eapply subscript_Raise.
Qed.

End ConvertMore.

(** ** sample_cfet: runs of [downsample] *)

Section DownsampleMore.

Import SampleCfet Examples.

Context {F : Type} `{PyFloat F}.
Variable draws : nat -> F.

Lemma inst_label_count_nil lc inst :
  inst_label_count lc inst = [] <-> ~ has_label inst.
Proof.
  unfold inst_label_count, has_label.
  induction (annotations inst) as [|a l IH]; cbn.
  - split; [by intros _ []|done].
  - destruct (labels a) as [|x ls]; cbn; [apply IH|].
    split; [done|]. intros Hn. by destruct Hn.
Qed.

(** What one pass of the loop body can do to the state. *)
Lemma downsample_line_step lc threshold line s :
  let r := downsample_line draws lc threshold line s in
  total_num r.1 = total_num s + 1
  /\ exists k,
       (k = [] \/ (k = [line] /\ r.2 = Ok tt))
       /\ ds_out r.1 = ds_out s ++ k
       /\ sample_num r.1 = sample_num s + len k.
Proof.
  cbn zeta.
  unfold downsample_line, bind, lift, count_total, modify, keep, ds_uniform,
    ret, truediv.
  destruct (subscript _ 0) as [first|e]; cbn.
  { destruct (first.2 <? threshold); cbn.
    - split; [done|]. exists [line]. unfold len. cbn. by split; [right|].
    - destruct (first.2 =? 0); cbn.
      + split; [done|]. exists []. unfold len. cbn.
        rewrite app_nil_r, Z.add_0_r. by split; [left|].
      + destruct (flt _ _); cbn.
        * split; [done|]. exists [line]. unfold len. cbn. by split; [right|].
        * split; [done|]. exists []. unfold len. cbn.
          rewrite app_nil_r, Z.add_0_r. by split; [left|]. }
  split; [done|]. exists []. unfold len. cbn.
  rewrite app_nil_r, Z.add_0_r. by split; [left|].
Qed.

Lemma downsample_loop_inv lc threshold lines s :
  let r := for_each lines (downsample_line draws lc threshold) s in
  exists k,
    ds_out r.1 = ds_out s ++ k
    /\ sublist k lines
    /\ sample_num r.1 = sample_num s + len k
    /\ len k <= total_num r.1 - total_num s <= len lines
    /\ (r.2 = Ok tt -> total_num r.1 = total_num s + len lines).
Proof.
  cbn zeta. revert s. induction lines as [|line lines IH]; intros s.
  - exists []. cbn. unfold len. cbn. rewrite app_nil_r.
    repeat split; try done; lia.
  - cbn [for_each]. unfold bind.
    destruct (downsample_line_step lc threshold line s)
      as (Ht & k & Hk & Hout & Hs).
    destruct (downsample_line draws lc threshold line s) as [s1 [[]|e]];
      cbn [fst snd] in *.
    + destruct (IH s1) as (k' & Hout' & Hsub & Hs' & Ht' & Hok).
      exists (k ++ k'). rewrite Hout', Hout, app_assoc, Hs', Hs.
      rewrite !len_app. unfold len in *. cbn [length].
      split; [done|]. split.
      { destruct Hk as [->|[-> _]]; [by apply sublist_cons|].
        by apply sublist_skip. }
      split; [lia|].
      assert (Z.of_nat (length k) <= 1)
        by (destruct Hk as [->|[-> _]]; cbn; lia).
      split; [lia|]. intros Hr. specialize (Hok Hr). lia.
    + exists k. destruct Hk as [->|[_ ?]]; [|done].
      rewrite Hout, Hs. unfold len. cbn [length].
      split; [done|]. split; [apply sublist_nil_l|].
      split; [done|]. split; [lia|done].
Qed.

(** X8. A run of [downsample] never invents, repeats or reorders a line: the
    output is a subsequence of the input file.  The two counters it
    reports fit: [sample_num] is the number of lines written, [total_num]
    the number of lines read, at most the length of the file and equal to
    it when the run ends normally. *)
Theorem downsample_output_sublist (input_file : list instance)
  (threshold : Z) :
  let r := downsample draws input_file threshold in
  sublist (ds_out r.1) input_file
  /\ sample_num r.1 = len (ds_out r.1)
  /\ sample_num r.1 <= total_num r.1 <= len input_file
  /\ (r.2 = Ok tt -> total_num r.1 = len input_file).
Proof.
  cbn zeta. unfold downsample.
  destruct (downsample_loop_inv (count_labels input_file) threshold
              input_file ds_init) as (k & Hout & Hsub & Hs & Ht & Hok).
  cbn in Hout, Hs, Ht, Hok. rewrite Hout, Hs.
  split; [done|]. split; [done|]. split; [lia|].
  intros Hr. rewrite (Hok Hr). lia.
Qed.

Lemma counted_labels_nonzero corpus inst :
  inst ∈ corpus ->
  forall x, x ∈ inst_label_count (count_labels corpus) inst -> x.2 <> 0.
Proof.
  intros Hinst x (a & l & Ha & Hl & ->)%elem_of_inst_label_count. cbn.
  assert (0 < counter_get (count_labels corpus) l)
    by by eapply count_labels_pos.
  lia.
Qed.

Lemma downsample_loop_result lc threshold lines s :
  Forall (fun inst => forall x, x ∈ inst_label_count lc inst -> x.2 <> 0)
    lines ->
  (for_each lines (downsample_line draws lc threshold) s).2
  = if decide (Forall has_label lines) then Ok tt else Raise IndexError.
Proof.
  intros Hpos. revert s.
  induction Hpos as [|line lines Hline Hpos IH]; intros s.
  - cbn. by rewrite decide_True by constructor.
  - cbn [for_each]. unfold bind.
    destruct (decide (has_label line)) as [Hl|Hl].
    + destruct (downsample_loop_Ok draws lc threshold [line] s) as (s1 & Hs1 & _).
      { constructor; [|constructor]. split; [|done].
        by rewrite inst_label_count_nil; intros []. }
      cbn in Hs1. unfold bind, ret in Hs1.
      destruct (downsample_line draws lc threshold line s) as [s' [[]|e]];
        [|done].
      rewrite IH.
      destruct (decide (Forall has_label lines)) as [Hall|Hall].
      * by rewrite decide_True by by constructor.
      * rewrite decide_False; [done|]. intros Hc. apply Hall.
        by eapply Forall_cons_1.
    + rewrite downsample_line_no_label
        by by apply inst_label_count_nil.
      rewrite decide_False; [done|]. intros Hc. apply Hl.
      by eapply Forall_cons_1.
Qed.

(** X9. A run of [downsample] ends normally exactly when every instance of
    the file carries a label; otherwise it stops with [IndexError], the
    subscript [[0]] of an empty list.  No other exception occurs: every
    label of the file has a positive count, so the division is defined. *)
Theorem downsample_result (input_file : list instance) (threshold : Z) :
  (downsample draws input_file threshold).2
  = if decide (Forall has_label input_file) then Ok tt else Raise IndexError.
Proof.
  unfold downsample. apply downsample_loop_result.
  apply Forall_forall. intros inst Hinst. by apply counted_labels_nonzero.
Qed.

(** X10. Where a run stops: at the first instance without a label.  The lines
    before it are read and sampled, the line itself is counted in
    [total_num], and nothing after it is read. *)
Theorem downsample_stops_at_unlabelled (pre post : list instance)
  (line : instance) (threshold : Z) :
  Forall has_label pre ->
  ~ has_label line ->
  let r := downsample draws (pre ++ line :: post) threshold in
  r.2 = Raise IndexError
  /\ total_num r.1 = len pre + 1
  /\ sublist (ds_out r.1) pre.
Proof.
  intros Hpre Hline. cbn zeta. unfold downsample.
  set (lc := count_labels (pre ++ line :: post)).
  destruct (downsample_loop_inv lc threshold pre ds_init)
    as (k & Hout & Hsub & _ & _ & Hok).
  destruct (downsample_loop_Ok draws lc threshold pre ds_init)
    as (s1 & Hs1 & _).
  { apply Forall_forall. intros inst Hinst. split.
    - rewrite inst_label_count_nil. intros Hn. apply Hn.
      by eapply (proj1 (Forall_forall _ _) Hpre).
    - apply counted_labels_nonzero. apply elem_of_app. by left. }
  rewrite Hs1 in Hout, Hok. cbn [fst snd] in Hout, Hok.
  assert (Hrun : for_each (pre ++ line :: post)
                   (downsample_line draws lc threshold) ds_init
                 = ({| ds_out := ds_out s1; total_num := total_num s1 + 1;
                       sample_num := sample_num s1; ds_rng := ds_rng s1 |},
                    Raise IndexError)).
  { rewrite for_each_app. unfold bind at 1. rewrite Hs1.
    cbn [for_each]. unfold bind.
    by rewrite downsample_line_no_label by by apply inst_label_count_nil. }
  rewrite Hrun. cbn [fst snd ds_out total_num].
  rewrite (Hok eq_refl), Hout. cbn. by repeat split.
Qed.

Lemma downsample_loop_all_rare lc threshold lines s :
  Forall has_label lines ->
  (forall l, counter_get lc l < threshold) ->
  for_each lines (downsample_line draws lc threshold) s
  = ({| ds_out := ds_out s ++ lines;
        total_num := total_num s + len lines;
        sample_num := sample_num s + len lines;
        ds_rng := ds_rng s |}, Ok tt).
Proof.
  intros Hall Hlt. revert s.
  induction Hall as [|line lines Hline Hall IH]; intros s.
  - cbn. unfold ret, len. cbn. rewrite app_nil_r, !Z.add_0_r. by destruct s.
  - cbn [for_each]. unfold bind.
    destruct (sort_by_count_head (inst_label_count lc line))
      as (x & Hx & Hin & _).
    { by rewrite inst_label_count_nil; intros []. }
    apply elem_of_inst_label_count in Hin as (a & l & _ & _ & ->).
    apply subscript_0 in Hx.
    assert (Hstep : downsample_line draws lc threshold line s
                    = ({| ds_out := ds_out s ++ [line];
                          total_num := total_num s + 1;
                          sample_num := sample_num s + 1;
                          ds_rng := ds_rng s |}, Ok tt)).
    { unfold downsample_line, bind, lift, count_total, modify. rewrite Hx.
      cbn. specialize (Hlt l). by apply Z.ltb_lt in Hlt as ->. }
    rewrite Hstep, IH. cbn. unfold len. cbn [length].
    rewrite <- app_assoc. cbn. do 2 f_equal; lia.
Qed.

(** X11. With a threshold above every label count of the file, [downsample]
    copies the file: every line is written, in order, and the generator
    is never asked. *)
Theorem downsample_identity (input_file : list instance) (threshold : Z) :
  Forall has_label input_file ->
  (forall l, counter_get (count_labels input_file) l < threshold) ->
  downsample draws input_file threshold
  = ({| ds_out := input_file;
        total_num := len input_file;
        sample_num := len input_file;
        ds_rng := 0 |}, Ok tt).
Proof.
  intros Hall Hlt. unfold downsample.
  by rewrite (downsample_loop_all_rare _ _ _ _ Hall Hlt).
Qed.

(** X12. In a run of [downsample], an instance whose least label count is
    below the threshold is in the output file whenever the loop reaches
    it, that is, when every instance before it carries a label. *)
Theorem downsample_run_keeps_rare (pre post : list instance)
  (line : instance) (threshold m : Z) :
  Forall has_label pre ->
  min_count (count_labels (pre ++ line :: post)) line m ->
  m < threshold ->
  line ∈ ds_out (downsample draws (pre ++ line :: post) threshold).1.
Proof.
  intros Hpre Hmin Hlt.
  apply (downsample_rare_in_output draws pre line post threshold m);
    [|done..].
  apply Forall_forall. intros inst Hinst.
  rewrite inst_label_count_nil. intros Hn. apply Hn.
  by eapply (proj1 (Forall_forall _ _) Hpre).
Qed.

End DownsampleMore.

(** ** sample_cfet: runs of [split] *)

Section SplitMore.

Import SampleCfet Examples.

Context {F : Type} `{PyFloat F}.
Variable draws : nat -> F.

Lemma rare_b_spec lc threshold inst :
  rare_b lc threshold inst = true <-> has_rare_label lc threshold inst.
Proof.
  unfold rare_b, has_rare_label. rewrite existsb_exists. split.
  - intros (l & Hl & Hlt). apply in_flat_map in Hl as (a & Ha & Hl).
    apply Z.ltb_lt in Hlt. exists a, l. by rewrite !list_elem_of_In.
  - intros (a & l & Ha & Hl & Hlt). exists l. split.
    + apply in_flat_map. exists a. by rewrite <- !list_elem_of_In.
    + by apply Z.ltb_lt.
Qed.

(** On the lines of the counted file, the test of [split] is [rare_b]. *)
Lemma infreq_test_rare_b corpus threshold line :
  line ∈ corpus ->
  existsb (fun label =>
             bool_decide (label ∈ infreq_labels (count_labels corpus) threshold))
    (flat_map labels (annotations line))
  = rare_b (count_labels corpus) threshold line.
Proof.
  intros Hline. apply eq_true_iff_eq.
  by rewrite rare_b_spec, infreq_test.
Qed.

Lemma split_loop_shape infreq rate lines s :
  let test line :=
    existsb (fun label => bool_decide (label ∈ infreq))
      (flat_map labels (annotations line)) in
  let r := fold_left (split_line draws infreq rate) lines s in
  exists kt kd,
    train r = train s ++ kt
    /\ dev r = dev s ++ kd
    /\ sublist kt lines
    /\ sublist kd lines
    /\ Forall (fun line => test line = false) kd
    /\ sp_rng r
       = (sp_rng s + length (List.filter (fun l => negb (test l)) lines))%nat.
Proof.
  cbn zeta. revert s. induction lines as [|line lines IH]; intros s.
  - exists [], []. cbn. rewrite !app_nil_r.
    repeat split; try done; lia.
  - cbn [fold_left List.filter].
    destruct (IH (split_line draws infreq rate s line))
      as (kt & kd & Ht & Hd & Hst & Hsd & Hkd & Hrng).
    rewrite Ht, Hd, Hrng. unfold split_line.
    destruct (existsb _ _) eqn:Htest; cbn;
      [|destruct (flt rate _); cbn];
      [exists (line :: kt), kd|exists (line :: kt), kd|exists kt, (line :: kd)];
      rewrite <- app_assoc;
      repeat split;
      (done || (by apply sublist_skip) || (by apply sublist_cons)
       || (by constructor) || lia).
Qed.

(** X13. Each output of [split] is a subsequence of the input file: the order
    of the lines is kept, and the two lengths add up to the length of the
    file. *)
Theorem split_outputs_sublist (input_file : list instance) (threshold : Z)
  (rate : F) :
  let r := split draws input_file threshold rate in
  sublist (train r) input_file
  /\ sublist (dev r) input_file
  /\ (length (train r) + length (dev r))%nat = length input_file.
Proof.
  cbn zeta.
  change (split draws input_file threshold rate)
    with (fold_left
            (split_line draws
               (infreq_labels (count_labels input_file) threshold) rate)
            input_file sp_init).
  destruct (split_loop_shape
              (infreq_labels (count_labels input_file) threshold) rate
              input_file sp_init)
    as (kt & kd & Ht & Hd & Hst & Hsd & _ & _).
  cbn zeta in Ht, Hd. rewrite Ht, Hd. cbn. split; [done|]. split; [done|].
  pose proof (split_loop_Permutation draws
                (infreq_labels (count_labels input_file) threshold) rate
                input_file sp_init) as Hp.
  rewrite Ht, Hd in Hp. cbn in Hp.
  apply Permutation_length in Hp. by rewrite length_app in Hp.
Qed.

(** X14. No instance with a label counted below the threshold is ever in the
    dev output. *)
Theorem split_dev_has_no_rare (input_file : list instance) (threshold : Z)
  (rate : F) (line : instance) :
  line ∈ dev (split draws input_file threshold rate) ->
  ~ has_rare_label (count_labels input_file) threshold line.
Proof.
  change (split draws input_file threshold rate)
    with (fold_left
            (split_line draws
               (infreq_labels (count_labels input_file) threshold) rate)
            input_file sp_init).
  destruct (split_loop_shape
              (infreq_labels (count_labels input_file) threshold) rate
              input_file sp_init)
    as (kt & kd & _ & Hd & _ & Hsd & Hkd & _).
  cbn zeta in Hd. rewrite Hd. cbn. intros Hline.
  assert (Hin : line ∈ input_file) by by eapply elem_of_sublist.
  pose proof (proj1 (Forall_forall _ _) Hkd line Hline) as Htest.
  cbn beta in Htest. intros Hrare.
  apply (infreq_test input_file threshold line Hin) in Hrare. congruence.
Qed.

(** X15. [split] asks the generator once per instance that has no label
    counted below the threshold, and never for the others. *)
Theorem split_draw_count (input_file : list instance) (threshold : Z)
  (rate : F) :
  sp_rng (split draws input_file threshold rate)
  = length
      (List.filter
         (fun line => negb (rare_b (count_labels input_file) threshold line))
         input_file).
Proof.
  change (split draws input_file threshold rate)
    with (fold_left
            (split_line draws
               (infreq_labels (count_labels input_file) threshold) rate)
            input_file sp_init).
  destruct (split_loop_shape
              (infreq_labels (count_labels input_file) threshold) rate
              input_file sp_init)
    as (kt & kd & _ & _ & _ & _ & _ & Hrng).
  cbn zeta in Hrng. rewrite Hrng. cbn. f_equal.
  apply filter_ext_in. intros line Hline. f_equal.
  apply infreq_test_rare_b. by apply list_elem_of_In.
Qed.

Lemma split_loop_constant_draws infreq rate lines s (above : bool) :
  (forall n, flt rate (draws n) = above) ->
  let test line :=
    existsb (fun label => bool_decide (label ∈ infreq))
      (flat_map labels (annotations line)) in
  let r := fold_left (split_line draws infreq rate) lines s in
  train r
  = train s ++ (if above then lines else List.filter test lines)
  /\ dev r
     = dev s ++ (if above then []
                 else List.filter (fun l => negb (test l)) lines).
Proof.
  intros Hdraw. cbn zeta. revert s.
  induction lines as [|line lines IH]; intros s.
  - cbn. destruct above; by rewrite !app_nil_r.
  - cbn [fold_left List.filter].
    destruct (IH (split_line draws infreq rate s line)) as [Ht Hd].
    rewrite Ht, Hd. unfold split_line.
    destruct (existsb _ _) eqn:Htest; cbn.
    + rewrite <- app_assoc. by destruct above.
    + rewrite Hdraw. destruct above; cbn; by rewrite <- app_assoc.
Qed.

(** X16. When every draw is above the rate (a rate below 0, say), the dev
    output is empty and the train output is the whole file. *)
Theorem split_no_dev (input_file : list instance) (threshold : Z)
  (rate : F) :
  (forall n, flt rate (draws n) = true) ->
  split draws input_file threshold rate
  = {| train := input_file; dev := [];
       sp_rng := sp_rng (split draws input_file threshold rate) |}.
Proof.
  intros Hdraw.
  destruct (split_loop_constant_draws
              (infreq_labels (count_labels input_file) threshold) rate
              input_file sp_init true Hdraw) as [Ht Hd].
  cbn zeta in Ht, Hd. cbn in Ht, Hd.
  change (split draws input_file threshold rate)
    with (fold_left
            (split_line draws
               (infreq_labels (count_labels input_file) threshold) rate)
            input_file sp_init).
  destruct (fold_left _ input_file sp_init) as [t d n].
  cbn in *. by subst.
Qed.

(** X17. When every draw is at most the rate (a rate of 1 or more), the split
    is decided by the labels alone: the train output is the instances
    with a label counted below the threshold, the dev output all the
    others, both in file order. *)
Theorem split_by_labels (input_file : list instance) (threshold : Z)
  (rate : F) :
  (forall n, fle (draws n) rate = true) ->
  let r := split draws input_file threshold rate in
  let rare := rare_b (count_labels input_file) threshold in
  train r = List.filter rare input_file
  /\ dev r = List.filter (fun line => negb (rare line)) input_file.
Proof.
  intros Hdraw. cbn zeta.
  assert (Hdraw' : forall n, flt rate (draws n) = false).
  { intros n. specialize (Hdraw n). rewrite fle_flt in Hdraw.
    by destruct (flt rate (draws n)). }
  destruct (split_loop_constant_draws
              (infreq_labels (count_labels input_file) threshold) rate
              input_file sp_init false Hdraw') as [Ht Hd].
  cbn zeta in Ht, Hd. cbn in Ht, Hd.
  change (split draws input_file threshold rate)
    with (fold_left
            (split_line draws
               (infreq_labels (count_labels input_file) threshold) rate)
            input_file sp_init).
  rewrite Ht, Hd. split; apply filter_ext_in; intros line Hline;
    [|f_equal]; apply infreq_test_rare_b; by apply list_elem_of_In.
Qed.

(** X18. Every count in the table is at least 1, so a threshold of 1 or less
    marks no label as infrequent: [split] then protects no instance. *)
Theorem infreq_labels_low_threshold (corpus : list instance)
  (threshold : Z) :
  threshold <= 1 ->
  infreq_labels (count_labels corpus) threshold = ∅.
Proof.
  intros Hth. apply set_eq. intros l. rewrite elem_of_infreq_labels.
  split; [|by intros ?%elem_of_empty].
  intros (c & Hc & Hlt). rewrite count_labels_lookup in Hc.
  unfold stored in Hc. case_decide; [|done]. injection Hc as <-. lia.
Qed.

End SplitMore.

(** ** sample_cfet: the table of [count_labels] *)

Section CountMore.

Import SampleCfet.

Lemma occurrences_app label c1 c2 :
  occurrences label (c1 ++ c2) = occurrences label c1 + occurrences label c2.
Proof.
  unfold occurrences. induction c1 as [|i c1 IH]; cbn; [done|].
  rewrite IH. lia.
Qed.

(** X6. Counting a file is counting its parts: the count of a label in a
    concatenation of two corpora is the sum of its counts in each. *)
Theorem count_labels_app (corpus1 corpus2 : list instance) (label : string) :
  counter_get (count_labels (corpus1 ++ corpus2)) label
  = counter_get (count_labels corpus1) label
    + counter_get (count_labels corpus2) label.
Proof. by rewrite !count_labels_get, occurrences_app. Qed.

Lemma occ_pos_inv label ls : 0 < occ label ls -> label ∈ ls.
Proof.
  induction ls as [|l ls IH]; cbn; [lia|].
  destruct (decide (l = label)) as [->|Hne]; [intros _; constructor|].
  intros Hpos. constructor. apply IH. lia.
Qed.

Lemma occ_inst_pos_inv label inst :
  0 < occ_inst label inst ->
  exists a, a ∈ annotations inst /\ label ∈ labels a.
Proof.
  unfold occ_inst. induction (annotations inst) as [|a l IH]; cbn; [lia|].
  intros Hpos. destruct (Z_lt_dec 0 (occ label (labels a))) as [Ha|Ha].
  - exists a. split; [constructor|by apply occ_pos_inv].
  - pose proof (occ_nonneg label (labels a)).
    destruct IH as (a' & Ha' & Hl); [lia|].
    exists a'. split; [by constructor|done].
Qed.

Lemma occurrences_pos_inv label corpus :
  0 < occurrences label corpus ->
  exists inst a, inst ∈ corpus /\ a ∈ annotations inst /\ label ∈ labels a.
Proof.
  unfold occurrences. induction corpus as [|i c IH]; cbn; [lia|].
  intros Hpos. destruct (Z_lt_dec 0 (occ_inst label i)) as [Hi|Hi].
  - destruct (occ_inst_pos_inv _ _ Hi) as (a & Ha & Hl).
    exists i, a. split; [constructor|done].
  - pose proof (occ_inst_nonneg label i).
    destruct IH as (i' & a & Hi' & Ha & Hl); [lia|].
    exists i', a. split; [by constructor|done].
Qed.

(** X7. The keys of the table are exactly the labels that some annotation of
    the corpus carries, and every stored count is at least 1: the table
    never holds a label with the count 0. *)
Theorem count_labels_keys (corpus : list instance) (label : string) :
  (label ∈ dom (count_labels corpus)
   <-> exists inst a,
         inst ∈ corpus /\ a ∈ annotations inst /\ label ∈ labels a)
  /\ (forall c, count_labels corpus !! label = Some c -> 1 <= c).
Proof.
  rewrite elem_of_dom, count_labels_lookup. unfold stored. split.
  - split.
    + intros [c Hc]. case_decide; [|done]. by apply occurrences_pos_inv.
    + intros (inst & a & Hi & Ha & Hl).
      rewrite decide_True by by eapply occurrences_pos. eauto.
  - intros c Hc. case_decide; [|done]. injection Hc as <-. lia.
Qed.

End CountMore.

(** ** wikiann2cfet: the offset tables *)

Section OffsetMore.

Import Wikiann2Cfet.

Lemma offset_maps_snoc tokens t :
  offset_maps (tokens ++ [t])
  = (<[tok_start t := len tokens]> (offset_maps tokens).1,
     <[tok_end t := len tokens + 1]> (offset_maps tokens).2).
Proof.
  unfold offset_maps. rewrite imap_app, fold_left_app. cbn.
  destruct (fold_left _ _ _) as [sm em]. cbn. unfold len.
  by rewrite Nat.add_0_r.
Qed.

Lemma lookup_snoc_Some {A} (l : list A) x j y :
  (l ++ [x]) !! j = Some y
  <-> l !! j = Some y \/ (j = length l /\ y = x).
Proof.
  rewrite lookup_app_Some, list_lookup_singleton_Some. split.
  - intros [?|(? & ? & ->)]; [by left|]. right. split; [lia|done].
  - intros [?|[-> ->]]; [by left|]. right.
    split; [lia|]. split; [lia|done].
Qed.

Lemma offset_maps_lookup (tokens : list token) (k i : Z) :
  ((offset_maps tokens).1 !! k = Some i <-> last_start tokens k i)
  /\ ((offset_maps tokens).2 !! k = Some i <-> last_end tokens k i).
Proof.
  revert i. induction tokens as [|t tokens IH] using rev_ind; intros i.
  - unfold last_start, last_end. cbn. rewrite !lookup_empty.
    split; (split; [done|]); by intros (_ & (t & Ht & _) & _).
  - rewrite offset_maps_snoc. cbn [fst snd]. unfold len.
    set (n := length tokens). split.
    + destruct (decide (tok_start t = k)) as [Hk|Hk].
      * rewrite Hk, lookup_insert_eq. unfold last_start. split.
        -- intros [= <-]. split; [lia|]. split.
           ++ exists t. rewrite Nat2Z.id.
              split; [|done]. apply lookup_snoc_Some. by right.
           ++ intros j t' Hj _. apply lookup_lt_Some in Hj.
              rewrite length_app in Hj. cbn in Hj. lia.
        -- intros (Hi & (t' & Ht' & _) & Hlast). f_equal.
           apply lookup_lt_Some in Ht'. rewrite length_app in Ht'.
           cbn in Ht'.
           assert (Z.of_nat n <= i); [|lia].
           apply (Hlast n t); [|done]. apply lookup_snoc_Some. by right.
      * rewrite lookup_insert_ne by done.
        rewrite (proj1 (IH i)). unfold last_start.
        setoid_rewrite lookup_snoc_Some. split.
        -- intros (Hi & (t' & Ht' & Hs) & Hlast). split; [done|]. split.
           ++ exists t'. split; [by left|done].
           ++ intros j t'' [Hj|[-> ->]] Hs'; [by eapply Hlast|done].
        -- intros (Hi & (t' & [Ht'|[_ ->]] & Hs) & Hlast); [|done].
           split; [done|]. split; [by exists t'|].
           intros j t'' Hj Hs'. apply (Hlast j t''); [by left|done].
    + destruct (decide (tok_end t = k)) as [Hk|Hk].
      * rewrite Hk, lookup_insert_eq. unfold last_end. split.
        -- intros [= <-]. split; [lia|]. split.
           ++ exists t. replace (Z.to_nat (Z.of_nat n + 1 - 1)) with n by lia.
              split; [|done]. apply lookup_snoc_Some. by right.
           ++ intros j t' Hj _. apply lookup_lt_Some in Hj.
              rewrite length_app in Hj. cbn in Hj. lia.
        -- intros (Hi & (t' & Ht' & _) & Hlast). f_equal.
           apply lookup_lt_Some in Ht'. rewrite length_app in Ht'.
           cbn in Ht'.
           assert (Z.of_nat n + 1 <= i); [|lia].
           apply (Hlast n t); [|done]. apply lookup_snoc_Some. by right.
      * rewrite lookup_insert_ne by done.
        rewrite (proj2 (IH i)). unfold last_end.
        setoid_rewrite lookup_snoc_Some. split.
        -- intros (Hi & (t' & Ht' & Hs) & Hlast). split; [done|]. split.
           ++ exists t'. split; [by left|done].
           ++ intros j t'' [Hj|[-> ->]] Hs'; [by eapply Hlast|done].
        -- intros (Hi & (t' & [Ht'|[_ ->]] & Hs) & Hlast); [|done].
           split; [done|]. split; [by exists t'|].
           intros j t'' Hj Hs'. apply (Hlast j t''); [by left|done].
Qed.

(** X20. When no other token starts where token [i] starts, the start table
    gives [i] back for its start offset; when no other token ends where
    it ends, the end table gives [i + 1] for its end offset. *)
Theorem offset_maps_round_trip (tokens : list token) (i : nat) (t : token) :
  tokens !! i = Some t ->
  ((forall j t', tokens !! j = Some t' -> tok_start t' = tok_start t ->
                 j = i) ->
   (offset_maps tokens).1 !! tok_start t = Some (Z.of_nat i))
  /\ ((forall j t', tokens !! j = Some t' -> tok_end t' = tok_end t ->
                    j = i) ->
      (offset_maps tokens).2 !! tok_end t = Some (Z.of_nat i + 1)).
Proof.
  intros Hi. split; intros Huniq; apply offset_maps_lookup.
  - split; [lia|]. split.
    + exists t. by rewrite Nat2Z.id.
    + intros j t' Hj Hs. rewrite (Huniq j t' Hj Hs). lia.
  - split; [lia|]. split.
    + exists t. by replace (Z.to_nat (Z.of_nat i + 1 - 1)) with i by lia.
    + intros j t' Hj Hs. rewrite (Huniq j t' Hj Hs). lia.
Qed.

(** X19. The start table maps an offset to the index of the last token that
    starts there, the end table to one more than the index of the last
    token that ends there; an offset where no token starts (ends) has no
    entry. *)
Theorem offset_maps_last_wins (tokens : list token) (k i : Z) :
  ((offset_maps tokens).1 !! k = Some i <-> last_start tokens k i)
  /\ ((offset_maps tokens).2 !! k = Some i <-> last_end tokens k i).
Proof. apply offset_maps_lookup. Qed.

End OffsetMore.

(** ** wikiann2cfet: the output lines and the counters *)

Section ExtractMore.

Import SampleCfet Wikiann2Cfet.

Variable entity_type_map : gmap string (list string).
Variable type_set : gset string.

Lemma collect_link_title_num entities title_num l :
  (collect_link entity_type_map type_set (entities, title_num) l).2
  = title_num + (if has_types entity_type_map l then 1 else 0).
Proof.
  unfold collect_link, has_types.
  destruct (link_title l) as [title|]; cbn; [|lia].
  destruct (entity_type_map !! _) as [types|]; cbn; [|lia].
  by destruct (filter _ types).
Qed.

Lemma collect_links_title_num links entities title_num :
  (fold_left (collect_link entity_type_map type_set) links
     (entities, title_num)).2
  = title_num + len (List.filter (has_types entity_type_map) links).
Proof.
  revert entities title_num.
  induction links as [|l links IH]; intros entities title_num;
    cbn [fold_left List.filter].
  - unfold len. cbn. lia.
  - pose proof (collect_link_title_num entities title_num l) as Hl.
    destruct (collect_link _ _ _ l) as [ents tn]. cbn in Hl. subst tn.
    rewrite IH. destruct (has_types entity_type_map l); unfold len; cbn; lia.
Qed.

Lemma annotate_fold_fields doc_id sm em tokens ents anns dmc nm :
  (forall e, aligned tokens e = true
             <-> is_Some (sm !! e_start e) /\ is_Some (em !! e_end e)) ->
  let c := counter_get dmc doc_id in
  let valid := List.filter (aligned tokens) ents in
  exists new dmc',
    fold_left (annotate_entity doc_id sm em) ents (anns, dmc, nm)
    = (anns ++ new, dmc', nm + (len ents - len valid))
    /\ length new = length valid
    /\ (forall k a, new !! k = Some a ->
          mention_id a = format_mention_id doc_id (c + Z.of_nat k)
          /\ exists e, valid !! k = Some e
                       /\ mention a = e_text e /\ labels a = e_types e
                       /\ sm !! e_start e = Some (start a)
                       /\ em !! e_end e = Some (end_ a)).
Proof.
  intros Hal. revert anns dmc nm.
  induction ents as [|e ents IH]; intros anns dmc nm; cbn zeta.
  - exists [], dmc. cbn. unfold len. cbn. rewrite app_nil_r, Z.add_0_r.
    split; [done|]. split; [done|]. done.
  - cbn [fold_left List.filter]. unfold annotate_entity at 2.
    destruct (aligned tokens e) eqn:He.
    + apply Hal in He as [[st Hst] [en Hen]]. rewrite Hst, Hen.
      set (a := {| mention := e_text e |}).
      set (dmc1 := <[doc_id := counter_get dmc doc_id + 1]> dmc).
      destruct (IH (anns ++ [a]) dmc1 nm)
        as (new & dmc' & Hfold & Hlen & Hnew).
      assert (Hc1 : counter_get dmc1 doc_id = counter_get dmc doc_id + 1).
      { unfold counter_get at 1, dmc1. by rewrite lookup_insert_eq. }
      exists (a :: new), dmc'. rewrite Hfold, <- app_assoc.
      split; [cbn; do 2 f_equal; unfold len; cbn [length]; lia|].
      split; [cbn; by rewrite Hlen|].
      intros [|k] b Hb; cbn in Hb.
      * inversion Hb; subst b. split; [cbn; by rewrite Z.add_0_r|].
        exists e. by cbn.
      * destruct (Hnew k b Hb) as [Hid Hv]. split; [|done].
        rewrite Hid, Hc1. f_equal. lia.
    + assert (Hno : match sm !! e_start e, em !! e_end e with
                    | Some _, Some _ => False
                    | _, _ => True
                    end).
      { destruct (sm !! e_start e) eqn:Hs; [|done].
        destruct (em !! e_end e) eqn:Hen; [|done].
        assert (aligned tokens e = true) by (apply Hal; rewrite Hs, Hen; eauto).
        congruence. }
      destruct (IH anns dmc (nm + 1)) as (new & dmc' & Hfold & Hrest).
      exists new, dmc'. split; [|done].
      replace (nm + (len (e :: ents) - len (List.filter (aligned tokens) ents)))
        with (nm + 1 + (len ents - len (List.filter (aligned tokens) ents)))
        by (unfold len; cbn [length]; lia).
      rewrite <- Hfold.
      destruct (sm !! e_start e); [destruct (em !! e_end e)|]; done.
Qed.

(** One document, in full: the line it adds and the four counters. *)
Lemma extract_doc_full s d :
  let s' := extract_doc entity_type_map type_set s d in
  let ents := entities_of entity_type_map type_set d in
  let valid := valid_entities entity_type_map type_set d in
  let c := counter_get (doc_mention_count s) (doc_id d) in
  title_num s'
  = title_num s + len (List.filter (has_types entity_type_map) (doc_links d))
  /\ entity_num s' = entity_num s + (if ents is [] then 0 else 1)
  /\ not_matched_num s' = not_matched_num s + (len ents - len valid)
  /\ valid_num s' = valid_num s + (if valid is [] then 0 else 1)
  /\ ((valid = [] /\ out s' = out s)
      \/ (exists inst,
            out s' = out s ++ [inst]
            /\ line_of entity_type_map type_set d c inst)).
Proof.
  cbn zeta. unfold line_of, extract_doc, valid_entities, entities_of.
  cbn zeta.
  pose proof (collect_links_entities entity_type_map type_set
                (doc_links d) [] (title_num s)) as Hents.
  pose proof (collect_links_title_num (doc_links d) [] (title_num s)) as Htn.
  destruct (fold_left _ (doc_links d) _) as [entities tn].
  cbn in Hents, Htn. rewrite <- Hents. subst tn. clear Hents.
  destruct entities as [|e0 ents].
  - cbn. unfold len. cbn.
    split; [done|]. split; [lia|]. split; [lia|]. split; [lia|]. by left.
  - pose proof (offset_maps_aligned (doc_tokens d)) as Hal.
    destruct (offset_maps (doc_tokens d)) as [sm em]. cbn [fst snd] in *.
    destruct (annotate_fold_fields (doc_id d) sm em (doc_tokens d)
                (e0 :: ents) [] (doc_mention_count s) (not_matched_num s) Hal)
      as (new & dmc' & Hfold & Hlen & Hnew).
    rewrite Hfold. cbn [app].
    destruct (List.filter _ (e0 :: ents)) as [|v valid] eqn:Hv;
      destruct new as [|a new]; try done;
      cbn [title_num entity_num not_matched_num valid_num out].
    + split; [done|]. split; [done|]. split; [done|]. split; [lia|].
      by left.
    + split; [done|]. split; [done|]. split; [done|]. split; [done|].
      right. eexists. split; [done|]. cbn [tokens annotations].
      split; [done|]. split; [done|]. split; [done|]. exact Hnew.
Qed.

Lemma extract_data_lines store s :
  exists ls,
    out (fold_left (extract_doc entity_type_map type_set) store s)
    = out s ++ ls
    /\ Forall
         (fun inst => exists d c,
              d ∈ store /\ line_of entity_type_map type_set d c inst)
         ls.
Proof.
  revert s. induction store as [|d store IH]; intros s; cbn [fold_left].
  - exists []. by rewrite app_nil_r.
  - destruct (IH (extract_doc entity_type_map type_set s d))
      as (ls & Hout & Hls).
    assert (Hls' : Forall
              (fun inst => exists d0 c,
                   d0 ∈ d :: store
                   /\ line_of entity_type_map type_set d0 c inst) ls).
    { eapply Forall_impl; [exact Hls|]. intros inst (d0 & c & Hd0 & Hl).
      exists d0, c. split; [by constructor|done]. }
    destruct (extract_doc_full s d) as (_ & _ & _ & _ & [[_ Ho]|Ho]).
    + exists ls. by rewrite Hout, Ho.
    + destruct Ho as (inst & Ho & Hline). exists (inst :: ls).
      rewrite Hout, Ho, <- app_assoc. split; [done|].
      constructor; [|done]. eexists d, _. split; [constructor|exact Hline].
Qed.

Lemma extract_data_Forall (P : instance -> Prop) store :
  (forall d c inst,
     d ∈ store -> line_of entity_type_map type_set d c inst -> P inst) ->
  Forall P (out (extract_data entity_type_map type_set store)).
Proof.
  intros HP. unfold extract_data.
  destruct (extract_data_lines store ex_init) as (ls & -> & Hls). cbn.
  eapply Forall_impl; [exact Hls|].
  intros inst (d & c & Hd & Hl). by eapply HP.
Qed.

Lemma line_of_annotation d c inst a :
  line_of entity_type_map type_set d c inst ->
  a ∈ annotations inst ->
  exists k e l,
    annotations inst !! k = Some a
    /\ mention_id a = format_mention_id (doc_id d) (c + Z.of_nat k)
    /\ l ∈ doc_links d
    /\ link_entity entity_type_map type_set l = Some e
    /\ mention a = e_text e /\ labels a = e_types e
    /\ (offset_maps (doc_tokens d)).1 !! e_start e = Some (start a)
    /\ (offset_maps (doc_tokens d)).2 !! e_end e = Some (end_ a).
Proof.
  intros (_ & _ & _ & Hanns) Ha.
  apply list_elem_of_lookup in Ha as [k Hk].
  destruct (Hanns k a Hk) as (Hid & e & He & Hm & Hl & Hs & Hen).
  assert (Hin : e ∈ valid_entities entity_type_map type_set d)
    by by eapply list_elem_of_lookup_2.
  unfold valid_entities in Hin.
  apply list_elem_of_In, filter_In in Hin as [Hin _].
  apply list_elem_of_In, list_elem_of_omap in Hin as (l & Hl' & Hle).
  by exists k, e, l.
Qed.

(** X21. Every annotation of every output line indexes into the tokens of its
    line: [0 <= start < len(tokens)] and [1 <= end <= len(tokens)]. *)
Theorem extract_data_annotation_bounds (store : list doc) :
  Forall
    (fun inst =>
       Forall
         (fun a => 0 <= start a < len (tokens inst)
                   /\ 1 <= end_ a <= len (tokens inst))
         (annotations inst))
    (out (extract_data entity_type_map type_set store)).
Proof.
  apply extract_data_Forall. intros d c inst _ Hline.
  apply Forall_forall. intros a Ha.
  destruct (line_of_annotation _ _ _ _ Hline Ha)
    as (k & e & l & _ & _ & _ & _ & _ & _ & Hs & He).
  destruct Hline as (-> & _). unfold len. rewrite length_map.
  apply offset_maps_lookup in Hs as (Hs0 & (t & Ht & _) & _).
  apply offset_maps_lookup in He as (He0 & (t' & Ht' & _) & _).
  apply lookup_lt_Some in Ht, Ht'. lia.
Qed.

(** X22. When the tokens of every document are in order (no token starts
    before an earlier one has ended) and every link is non-empty
    ([start < end] in characters), every annotation of every output line
    satisfies the span invariant of the CFET format,
    [0 <= start < end <= len(tokens)]. *)
Theorem extract_data_span_ok (store : list doc) :
  Forall (fun d => tokens_ordered (doc_tokens d)) store ->
  Forall (fun d => Forall (fun l => link_start l < link_end l) (doc_links d))
    store ->
  Forall (fun inst => Forall (span_ok inst) (annotations inst))
    (out (extract_data entity_type_map type_set store)).
Proof.
  intros Hord Hlinks. apply extract_data_Forall. intros d c inst Hd Hline.
  apply Forall_forall. intros a Ha.
  destruct (line_of_annotation _ _ _ _ Hline Ha)
    as (k & e & l & _ & _ & Hl & Hle & _ & _ & Hs & He).
  unfold span_ok. destruct Hline as (-> & _). unfold len. rewrite length_map.
  apply offset_maps_lookup in Hs as (Hs0 & (t & Ht & Hts) & _).
  apply offset_maps_lookup in He as (He0 & (t' & Ht' & Hte) & _).
  pose proof (lookup_lt_Some _ _ _ Ht). pose proof (lookup_lt_Some _ _ _ Ht').
  split; [done|]. split; [|lia].
  destruct (Z_lt_dec (start a) (end_ a)) as [|Hge]; [done|].
  pose proof (proj1 (Forall_forall _ _) Hord d Hd) as Hd_ord.
  pose proof (proj1 (Forall_forall _ _) Hlinks d Hd) as Hd_links.
  pose proof (proj1 (Forall_forall _ _) Hd_links l Hl) as Hlt.
  cbn beta in Hd_ord, Hlt.
  assert (e_start e = link_start l /\ e_end e = link_end l) as [Hes Hee].
  { unfold link_entity in Hle.
    destruct (link_title l); [|done].
    destruct (entity_type_map !! _); [|done].
    destruct (filter _ _); [done|]. by injection Hle as <-. }
  assert (tok_end t' <= tok_start t); [|lia].
  apply (Hd_ord (Z.to_nat (end_ a - 1)) (Z.to_nat (start a))); [done..|lia].
Qed.

(** X23. Every output line has at least one annotation, and every annotation
    has at least one label, all of them from the ontology. *)
Theorem extract_data_labels (store : list doc) :
  Forall
    (fun inst =>
       annotations inst <> []
       /\ Forall (fun a => labels a <> []
                           /\ Forall (fun t => t ∈ type_set) (labels a))
            (annotations inst))
    (out (extract_data entity_type_map type_set store)).
Proof.
  apply extract_data_Forall. intros d c inst _ Hline.
  split; [by destruct Hline as (_ & ? & _)|].
  apply Forall_forall. intros a Ha.
  destruct (line_of_annotation _ _ _ _ Hline Ha)
    as (k & e & l & _ & _ & _ & Hle & _ & -> & _).
  unfold link_entity in Hle.
  destruct (link_title l); [|done].
  destruct (entity_type_map !! _) as [types|]; [|done].
  destruct (filter _ types) as [|t ts] eqn:Hf; [done|].
  injection Hle as <-. cbn. split; [done|].
  rewrite <- Hf. apply Forall_forall. intros x Hx.
  by apply list_elem_of_filter in Hx as [? _].
Qed.

Lemma string_app_inv_head (p a b : string) : p +:+ a = p +:+ b -> a = b.
Proof. induction p as [|c p IH]; cbn; [done|]. intros [= ?]. by apply IH. Qed.

Lemma format_mention_id_inj id : Inj (=) (=) (format_mention_id id).
Proof.
  intros n m Heq. unfold format_mention_id in Heq.
  apply string_app_inv_head in Heq. cbn in Heq. injection Heq as Heq.
  by apply pretty_Z_inj in Heq.
Qed.

(** X24. The mention ids of one output line are pairwise distinct. *)
Theorem extract_data_mention_ids_distinct (store : list doc) :
  Forall (fun inst => NoDup (map mention_id (annotations inst)))
    (out (extract_data entity_type_map type_set store)).
Proof.
  apply extract_data_Forall. intros d c inst _ (_ & _ & _ & Hanns).
  apply NoDup_alt. intros i j x Hi Hj.
  rewrite list_lookup_fmap in Hi, Hj.
  destruct (annotations inst !! i) as [a|] eqn:Ha; [|done].
  destruct (annotations inst !! j) as [b|] eqn:Hb; [|done].
  cbn in Hi, Hj.
  destruct (Hanns i a Ha) as [Hia _]. destruct (Hanns j b Hb) as [Hjb _].
  assert (Heq : format_mention_id (doc_id d) (c + Z.of_nat i)
                = format_mention_id (doc_id d) (c + Z.of_nat j))
    by congruence.
  apply format_mention_id_inj in Heq. lia.
Qed.

Lemma extract_data_counters_from store s :
  let r := fold_left (extract_doc entity_type_map type_set) store s in
  title_num r
  = title_num s
    + sumZ (fun d => len (List.filter (has_types entity_type_map)
                            (doc_links d))) store
  /\ entity_num r
     = entity_num s
       + len (List.filter
                (fun d => nonempty (entities_of entity_type_map type_set d))
                store)
  /\ not_matched_num r
     = not_matched_num s
       + sumZ (fun d => len (entities_of entity_type_map type_set d)
                        - len (valid_entities entity_type_map type_set d))
           store
  /\ valid_num r
     = valid_num s
       + len (List.filter
                (fun d => nonempty (valid_entities entity_type_map type_set d))
                store)
  /\ len (out r) - len (out s) = valid_num r - valid_num s.
Proof.
  cbn zeta. revert s.
  induction store as [|d store IH]; intros s; cbn [fold_left].
  - unfold sumZ, len. cbn. lia.
  - destruct (IH (extract_doc entity_type_map type_set s d))
      as (Ht & He & Hn & Hv & Ho).
    destruct (extract_doc_full s d) as (Ht1 & He1 & Hn1 & Hv1 & Ho1).
    rewrite Ht, He, Hn, Hv, Ht1, He1, Hn1, Hv1.
    assert (Hlen : len (out (extract_doc entity_type_map type_set s d))
                   - len (out s)
                   = if valid_entities entity_type_map type_set d is []
                     then 0 else 1).
    { destruct Ho1 as [[-> ->]|(inst & -> & Hline)]; [lia|].
      destruct Hline as (_ & Hne & Hl & _).
      destruct (valid_entities _ _ d);
        [by destruct (annotations inst)|].
      rewrite len_app. unfold len. cbn. lia. }
    unfold sumZ, len in *. cbn [foldr List.filter].
    destruct (entities_of entity_type_map type_set d);
      destruct (valid_entities entity_type_map type_set d);
      cbn [nonempty length] in *; lia.
Qed.

(** X25. What the four numbers that [extract_data] reports count: the links
    whose title the type map knows, the documents with a typed link whose
    types meet the ontology, the typed links that do not align with token
    boundaries, and the documents with an output line; the last one is
    the number of lines written. *)
Theorem extract_data_counters (store : list doc) :
  let r := extract_data entity_type_map type_set store in
  title_num r
  = sumZ (fun d => len (List.filter (has_types entity_type_map)
                          (doc_links d))) store
  /\ entity_num r
     = len (List.filter
              (fun d => nonempty (entities_of entity_type_map type_set d))
              store)
  /\ not_matched_num r
     = sumZ (fun d => len (entities_of entity_type_map type_set d)
                      - len (valid_entities entity_type_map type_set d))
         store
  /\ valid_num r
     = len (List.filter
              (fun d => nonempty (valid_entities entity_type_map type_set d))
              store)
  /\ valid_num r = len (out r).
Proof.
  cbn zeta. unfold extract_data.
  destruct (extract_data_counters_from store ex_init)
    as (Ht & He & Hn & Hv & Ho).
  cbn zeta in *. rewrite Ht, He, Hn. cbn. unfold len in *. cbn in *.
  repeat split; lia.
Qed.

Lemma link_entity_fields l e :
  link_entity entity_type_map type_set l = Some e ->
  e_text e = link_text l /\ e_start e = link_start l
  /\ e_end e = link_end l.
Proof.
  unfold link_entity.
  destruct (link_title l); [|done].
  destruct (entity_type_map !! _); [|done].
  destruct (filter _ _); [done|]. by intros [= <-].
Qed.

(** X26. Every annotation of every output line comes from a link of a
    document of the store, and its token span covers the characters of
    the link exactly: the token at index [start] starts at the first
    character of the link, the token at index [end - 1] ends at its last,
    and the mention is the text of the link. *)
Theorem extract_data_spans_align (store : list doc) :
  Forall
    (fun inst =>
       exists d,
         d ∈ store
         /\ tokens inst = map tok_text (doc_tokens d)
         /\ Forall
              (fun a =>
                 exists l t_first t_last,
                   l ∈ doc_links d
                   /\ mention a = link_text l
                   /\ doc_tokens d !! Z.to_nat (start a) = Some t_first
                   /\ tok_start t_first = link_start l
                   /\ doc_tokens d !! Z.to_nat (end_ a - 1) = Some t_last
                   /\ tok_end t_last = link_end l)
              (annotations inst))
    (out (extract_data entity_type_map type_set store)).
Proof.
  apply extract_data_Forall. intros d c inst Hd Hline.
  exists d. split; [done|]. split; [by destruct Hline|].
  apply Forall_forall. intros a Ha.
  destruct (line_of_annotation _ _ _ _ Hline Ha)
    as (k & e & l & _ & _ & Hl & Hle & Hm & _ & Hs & He).
  apply link_entity_fields in Hle as (Htx & Hes & Hee).
  apply offset_maps_lookup in Hs as (_ & (t & Ht & Hts) & _).
  apply offset_maps_lookup in He as (_ & (t' & Ht' & Hte) & _).
  exists l, t, t'. repeat split; congruence.
Qed.

Lemma extract_data_has_label (store : list doc) :
  Forall has_label (out (extract_data entity_type_map type_set store)).
Proof.
  apply extract_data_Forall. intros d c inst _ Hline.
  destruct Hline as (_ & Hne & _ & Hanns).
  destruct (annotations inst) as [|a anns] eqn:Ha; [done|].
  destruct (Hanns 0%nat a eq_refl) as (_ & e & He & _ & Hl & _).
  assert (Hin : e ∈ valid_entities entity_type_map type_set d)
    by by eapply list_elem_of_lookup_2.
  unfold valid_entities in Hin.
  apply list_elem_of_In, filter_In in Hin as [Hin _].
  apply list_elem_of_In, list_elem_of_omap in Hin as (l & _ & Hle).
  unfold has_label. rewrite Ha. cbn. rewrite Hl.
  unfold link_entity in Hle.
  destruct (link_title l); [|done].
  destruct (entity_type_map !! _); [|done].
  destruct (filter _ _); [done|]. by injection Hle as <-.
Qed.

End ExtractMore.

(** ** wikiann2cfet into sample_cfet *)

Section Pipeline.

Import SampleCfet Wikiann2Cfet.

Context {F : Type} `{PyFloat F}.
Variable draws : nat -> F.
Variable entity_type_map : gmap string (list string).
Variable type_set : gset string.

(** X27. The output of [extract_data] is a file that [downsample] reads to
    the end: every line carries a label, so the subscript [[0]] of the
    sorted counts never fails. *)
Theorem downsample_after_extract_data (store : list doc) (threshold : Z) :
  (downsample draws (out (extract_data entity_type_map type_set store))
     threshold).2
  = Ok tt.
Proof.
  unfold downsample. rewrite downsample_loop_result.
  - by rewrite decide_True by apply extract_data_has_label.
  - apply Forall_forall. intros inst Hinst.
    by apply counted_labels_nonzero.
Qed.

End Pipeline.

(** ** wikiann2cfet: titles *)

Section TitleMore.

Import Wikiann2Cfet.

Lemma replace_space_length s :
  String.length (replace_space s) = String.length s.
Proof. induction s as [|c s IH]; cbn; [done|]. by rewrite IH. Qed.

(** X28. [title.replace(' ', '_')] keeps the length of the title, leaves no
    space in it, changes nothing when applied again, and leaves a title
    without spaces as it is. *)
Theorem replace_space_normalises (s : string) :
  String.length (replace_space s) = String.length s
  /\ ~ In " "%char (list_ascii_of_string (replace_space s))
  /\ replace_space (replace_space s) = replace_space s
  /\ (~ In " "%char (list_ascii_of_string s) -> replace_space s = s).
Proof.
  split; [apply replace_space_length|].
  induction s as [|c s (Hno & Hidem & Hid)]; cbn; [by repeat split; auto|].
  destruct (Ascii.eqb c " ") eqn:Hc; cbn.
  - apply Ascii.eqb_eq in Hc as ->. split; [|split].
    + by intros [?|?].
    + by rewrite Hidem.
    + intros Hn. destruct Hn. by left.
  - rewrite Hc. apply Ascii.eqb_neq in Hc. split; [|split].
    + intros [?|?]; [by subst|done].
    + by rewrite Hidem.
    + intros Hn. rewrite Hid; [done|]. intros ?. apply Hn. by right.
Qed.

End TitleMore.

(** ** The further properties at concrete inputs *)

Section MoreInstances.

Import Cfet2Bfet SampleCfet Wikiann2Cfet Examples.

Lemma tokenize_then_add_piece_offsets_witness :
  0 <= 0 < len three_tokens
  /\ 0 <= 1 < len three_tokens
  /\ add_piece_offsets (tokenize three_tokens char_tokenizer).2
       (span 0 1 ["T"])
     = Ok {| cfet := span 0 1 ["T"];
             piece_start := PyTuple 0 2;
             piece_end := PyTuple 2 3 |}.
Proof.
  split; [unfold len; cbn; lia|]. split; [unfold len; cbn; lia|].
  refine (eq_trans
            (tokenize_then_add_piece_offsets three_tokens char_tokenizer
               (span 0 1 ["T"]) _ _) _);
    [unfold len; cbn; lia..|reflexivity].
Defined.

Lemma has_label_labelled l ls : has_label (labelled (l :: ls)).
Proof. unfold has_label. cbn. discriminate. Qed.

Lemma downsample_stops_at_unlabelled_witness :
  Forall has_label [labelled ["A"]]
  /\ ~ has_label unlabelled
  /\ (downsample half ([labelled ["A"]] ++ unlabelled :: [labelled ["B"]]) 5).2
     = Raise IndexError
  /\ total_num
       (downsample half ([labelled ["A"]] ++ unlabelled :: [labelled ["B"]])
          5).1
     = 2
  /\ sublist
       (ds_out
          (downsample half
             ([labelled ["A"]] ++ unlabelled :: [labelled ["B"]]) 5).1)
       [labelled ["A"]].
Proof.
  assert (Hpre : Forall has_label [labelled ["A"]])
    by (repeat constructor; apply has_label_labelled).
  assert (Hline : ~ has_label unlabelled) by (intros Hn; by apply Hn).
  split; [exact Hpre|]. split; [exact Hline|].
  exact (downsample_stops_at_unlabelled half [labelled ["A"]]
           [labelled ["B"]] unlabelled 5 Hpre Hline).
Defined.

Lemma counts_AB_B_below_3 l : counter_get (count_labels corpus_AB_B) l < 3.
Proof.
  rewrite count_labels_get. unfold occurrences, occ_inst. cbn.
  repeat case_decide; (lia || congruence).
Qed.

Lemma downsample_identity_witness :
  Forall has_label corpus_AB_B
  /\ (forall l, counter_get (count_labels corpus_AB_B) l < 3)
  /\ downsample half corpus_AB_B 3
     = ({| ds_out := corpus_AB_B; total_num := 2; sample_num := 2;
           ds_rng := 0 |}, Ok tt).
Proof.
  assert (Hall : Forall has_label corpus_AB_B)
    by (repeat constructor; apply has_label_labelled).
  split; [exact Hall|]. split; [exact counts_AB_B_below_3|].
  exact (downsample_identity half corpus_AB_B 3 Hall counts_AB_B_below_3).
Defined.

Lemma downsample_run_keeps_rare_witness :
  Forall has_label [labelled ["A"; "B"]]
  /\ min_count (count_labels ([labelled ["A"; "B"]] ++ labelled ["B"] :: []))
       (labelled ["B"]) 2
  /\ 2 < 3
  /\ labelled ["B"]
     ∈ ds_out
         (downsample half ([labelled ["A"; "B"]] ++ labelled ["B"] :: []) 3).1.
Proof.
  assert (Hpre : Forall has_label [labelled ["A"; "B"]])
    by (repeat constructor; apply has_label_labelled).
  split; [exact Hpre|]. split; [exact min_count_B|]. split; [lia|].
  apply (downsample_run_keeps_rare half [labelled ["A"; "B"]] []
           (labelled ["B"]) 3 2 Hpre min_count_B).
  lia.
Defined.

Lemma split_dev_has_no_rare_witness :
  labelled ["B"] ∈ dev (split half corpus_AB_B 2 ((3 # 4)%Q))
  /\ ~ has_rare_label (count_labels corpus_AB_B) 2 (labelled ["B"]).
Proof.
  assert (Hin : labelled ["B"] ∈ dev (split half corpus_AB_B 2 ((3 # 4)%Q)))
    by (vm_compute; constructor).
  split; [exact Hin|].
  exact (split_dev_has_no_rare half corpus_AB_B 2 ((3 # 4)%Q)
           (labelled ["B"]) Hin).
Defined.

Lemma split_no_dev_witness :
  (forall n, flt ((1 # 100)%Q) (half n) = true)
  /\ train (split half corpus_AB_B 2 ((1 # 100)%Q)) = corpus_AB_B
  /\ dev (split half corpus_AB_B 2 ((1 # 100)%Q)) = [].
Proof.
  assert (Hdraw : forall n, flt ((1 # 100)%Q) (half n) = true)
    by (intros n; reflexivity).
  split; [exact Hdraw|].
  pose proof (split_no_dev half corpus_AB_B 2 ((1 # 100)%Q) Hdraw) as Hs.
  split; [exact (f_equal train Hs)|exact (f_equal dev Hs)].
Defined.

Lemma split_by_labels_witness :
  (forall n, fle (half n) ((3 # 4)%Q) = true)
  /\ train (split half corpus_AB_B 2 ((3 # 4)%Q)) = [labelled ["A"; "B"]]
  /\ dev (split half corpus_AB_B 2 ((3 # 4)%Q)) = [labelled ["B"]].
Proof.
  assert (Hdraw : forall n, fle (half n) ((3 # 4)%Q) = true)
    by (intros n; reflexivity).
  split; [exact Hdraw|].
  destruct (split_by_labels half corpus_AB_B 2 ((3 # 4)%Q) Hdraw) as [Ht Hd].
  split; [exact (eq_trans Ht eq_refl)|exact (eq_trans Hd eq_refl)].
Defined.

Lemma infreq_labels_low_threshold_witness :
  1 <= 1 /\ infreq_labels (count_labels corpus_AB_B) 1 = ∅.
Proof.
  split; [lia|]. apply (infreq_labels_low_threshold corpus_AB_B 1). lia.
Defined.

Lemma cat_token_unique_start j t' :
  cat_tokens !! j = Some t' -> tok_start t' = 4 -> j = 1%nat.
Proof. destruct j as [|[|[|j]]]; cbn; intros [= <-]; cbn; (done || lia). Qed.

Lemma cat_token_unique_end j t' :
  cat_tokens !! j = Some t' -> tok_end t' = 7 -> j = 1%nat.
Proof. destruct j as [|[|[|j]]]; cbn; intros [= <-]; cbn; (done || lia). Qed.

Lemma offset_maps_round_trip_witness :
  cat_tokens !! 1%nat
  = Some {| tok_text := "cat"; tok_start := 4; tok_end := 7 |}
  /\ (offset_maps cat_tokens).1 !! 4 = Some 1
  /\ (offset_maps cat_tokens).2 !! 7 = Some 2.
Proof.
  split; [reflexivity|].
  destruct (offset_maps_round_trip cat_tokens 1
              {| tok_text := "cat"; tok_start := 4; tok_end := 7 |} eq_refl)
    as [Hs He].
  split; [exact (Hs cat_token_unique_start)|exact (He cat_token_unique_end)].
Defined.

Lemma cat_tokens_ordered : tokens_ordered cat_tokens.
Proof.
  intros i j ti tj Hi Hj Hij.
  destruct i as [|[|[|i]]]; destruct j as [|[|[|j]]]; cbn in Hi, Hj;
    try done; try lia;
    injection Hi as <-; injection Hj as <-; cbn; lia.
Qed.

Lemma extract_data_span_ok_witness :
  Forall (fun d => tokens_ordered (doc_tokens d)) [other_doc; cat_doc]
  /\ Forall
       (fun d => Forall (fun l => link_start l < link_end l) (doc_links d))
       [other_doc; cat_doc]
  /\ Forall (fun inst => Forall (span_ok inst) (annotations inst))
       (out (extract_data types_of ontology [other_doc; cat_doc])).
Proof.
  assert (Hord : Forall (fun d => tokens_ordered (doc_tokens d))
                   [other_doc; cat_doc])
    by (repeat constructor; exact cat_tokens_ordered).
  assert (Hlinks : Forall
                     (fun d => Forall (fun l => link_start l < link_end l)
                                 (doc_links d))
                     [other_doc; cat_doc])
    by (repeat constructor; cbn; lia).
  split; [exact Hord|]. split; [exact Hlinks|].
  exact (extract_data_span_ok types_of ontology [other_doc; cat_doc]
           Hord Hlinks).
Defined.

End MoreInstances.

(** ** sample_cfet: the two passes in a row *)

Section MainMore.

Import SampleCfet SampleCfetMain.

Context {F : Type} `{PyFloat F}.
Variable draws : nat -> F.
Variable point005 : F.

(** X29. The main block either stops in [downsample] with [IndexError],
    exactly when some instance of the input carries no label, or ends
    with train and dev files that are subsequences of the input, together
    as long as the number of sampled lines, and with no instance in dev
    that has a label counted below 200 in the sampled file. *)
Theorem main_outcome (input_file : list instance) :
  let r := main draws point005 input_file in
  (r.2 = Raise IndexError /\ ~ Forall has_label input_file)
  \/ (exists sp,
        r.2 = Ok sp
        /\ Forall has_label input_file
        /\ total_num r.1 = len input_file
        /\ sublist (train sp) input_file
        /\ sublist (dev sp) input_file
        /\ Z.of_nat (length (train sp) + length (dev sp)) = sample_num r.1
        /\ Forall
             (fun line =>
                ~ has_rare_label (count_labels (ds_out r.1)) 200 line)
             (dev sp)).
Proof.
  cbn zeta. unfold main.
  assert (Hres : (downsample draws input_file 50000).2
                 = if decide (Forall has_label input_file)
                   then Ok tt else Raise IndexError).
  { unfold downsample. apply downsample_loop_result.
    apply Forall_forall. intros inst Hinst.
    by apply counted_labels_nonzero. }
  destruct (downsample_loop_inv draws (count_labels input_file) 50000
              input_file ds_init) as (k & Hout & Hsub & Hs & _ & Hok).
  fold (downsample draws input_file 50000) in Hout, Hs, Hok.
  destruct (downsample draws input_file 50000) as [s [[]|e]];
    cbn [fst snd] in *.
  - right. eexists. split; [done|].
    destruct (decide (Forall has_label input_file)) as [Hall|]; [|done].
    split; [done|]. split; [by rewrite (Hok eq_refl)|].
    cbn in Hout. subst k.
    set (draws' := fun n => draws (ds_rng s + n)%nat).
    change (split draws' (ds_out s) 200 point005)
      with (fold_left
              (split_line draws'
                 (infreq_labels (count_labels (ds_out s)) 200) point005)
              (ds_out s) sp_init).
    destruct (split_loop_shape draws'
                (infreq_labels (count_labels (ds_out s)) 200) point005
                (ds_out s) sp_init)
      as (kt & kd & Ht & Hd & Hst & Hsd & Hkd & _).
    pose proof (split_loop_Permutation draws'
                  (infreq_labels (count_labels (ds_out s)) 200) point005
                  (ds_out s) sp_init) as Hp.
    cbn zeta in Ht, Hd. rewrite Ht, Hd in *. cbn in Hp |- *.
    split; [by etransitivity|]. split; [by etransitivity|]. split.
    + apply Permutation_length in Hp. rewrite length_app in Hp.
      rewrite Hp, Hs. unfold len. cbn. lia.
    + apply Forall_forall. intros line Hline.
      assert (Hin : line ∈ ds_out s) by by eapply elem_of_sublist.
      pose proof (proj1 (Forall_forall _ _) Hkd line Hline) as Htest.
      cbn beta in Htest. intros Hrare.
      apply (infreq_test (ds_out s) 200 line Hin) in Hrare. congruence.
  - left. destruct (decide (Forall has_label input_file)); [done|].
    split; [by injection Hres as ->|done].
Qed.

End MainMore.

(** ** cfet2bfet: a run on a file with lines *)

Section ConvertRuns.

Import Cfet2Bfet Examples.

Variable bert roberta : string -> option string -> result tokenizer.

(** C1 as stated, at the model name "gpt2": [convert] on a one-line file
    stops with the [ValueError] of [create_tokenizer], not with a
    [TypeError]. *)
Lemma convert_gpt2_raises_ValueError :
  convert load_chars load_chars [two_tokens] "gpt2" None 128
  = (init_state, Raise ValueError)
  /\ convert load_chars load_chars [two_tokens] "gpt2" None 128
     <> (init_state, Raise TypeError).
Proof. split; [reflexivity|discriminate]. Qed.

(** C1, amended. On a file with at least one line [convert] fails before
    it writes a line or counts an instance: with the exception of
    [create_tokenizer] when that raises, which is [ValueError] for a model
    name that starts with neither "bert" nor "roberta"; and otherwise with
    [TypeError] at the first line, where [tokenize] is called with the
    token list alone. *)
Theorem convert_nonempty_fails (line : instance) (rest : list instance)
  (bert_model : string) (bert_cache_dir : option string) (max_len : Z) :
  convert bert roberta (line :: rest) bert_model bert_cache_dir max_len
  = (init_state,
     match create_tokenizer bert roberta bert_model bert_cache_dir with
     | Ok _ => Raise TypeError
     | Raise e => Raise e
     end)
  /\ (String.prefix "bert" bert_model = false ->
      String.prefix "roberta" bert_model = false ->
      create_tokenizer bert roberta bert_model bert_cache_dir
      = Raise ValueError).
Proof.
  split.
  - unfold convert, bind, lift.
    destruct (create_tokenizer _ _ _ _) as [tk|e]; [|done].
    by rewrite (for_each_raise _ TypeError).
  - intros Hb Hr. unfold create_tokenizer. by rewrite Hb, Hr.
Qed.

End ConvertRuns.

(** ** sample_cfet: an instance in a run of [downsample] *)

Section DownsampleRuns.

Import SampleCfet Examples.

Context {F : Type} `{PyFloat F}.
Variable draws : nat -> F.

(** The run up to a line that is preceded by labelled lines only, and
    from that line on. *)
Lemma downsample_run_split pre line post threshold :
  Forall has_label pre ->
  let lc := count_labels (pre ++ line :: post) in
  let body := downsample_line draws lc threshold in
  exists s,
    for_each pre body ds_init = (s, Ok tt)
    /\ sublist (ds_out s) pre
    /\ downsample draws (pre ++ line :: post) threshold
       = bind (body line) (fun _ => for_each post body) s.
Proof.
  intros Hpre lc body.
  destruct (downsample_loop_inv draws lc threshold pre ds_init)
    as (k & Hout & Hsub & _).
  destruct (downsample_loop_Ok draws lc threshold pre ds_init)
    as (s & Hs & _).
  { apply Forall_forall. intros inst Hinst. split.
    - rewrite inst_label_count_nil. intros Hn. apply Hn.
      by eapply (proj1 (Forall_forall _ _) Hpre).
    - apply counted_labels_nonzero. apply elem_of_app. by left. }
  exists s. fold body in Hs. split; [done|].
  fold body in Hout. rewrite Hs in Hout. cbn in Hout. rewrite Hout.
  split; [done|].
  unfold downsample. fold lc. fold body.
  rewrite for_each_app. unfold bind at 1. by rewrite Hs.
Qed.

(** C6 as stated, on the file [corpus_blocked] with the threshold 3: the
    second line has the least label count 2, below the threshold, and is
    not written; the run stops at the first line, which has no label. *)
Lemma downsample_rare_not_written :
  min_count (count_labels corpus_blocked) (labelled ["B"]) 2
  /\ 2 < 3
  /\ downsample half corpus_blocked 3
     = ({| ds_out := []; total_num := 1; sample_num := 0; ds_rng := 0 |},
        Raise IndexError).
Proof.
  split; [|split; [lia|by vm_compute]]. split.
  - exists (span 0 1 ["B"]), "B".
    split; [cbn; constructor|]. split; [cbn; constructor|reflexivity].
  - intros a l Ha Hl. rewrite (elem_of_labelled _ _ Ha) in Hl.
    apply list_elem_of_singleton in Hl as ->. by vm_compute.
Qed.

(** C6, amended. In a run of [downsample], an instance whose least label
    count is below the threshold is written to the output, at its place
    among the lines written, whatever the generator returns, provided the
    loop reaches it: every instance before it in the file carries a
    label. *)
Theorem downsample_run_writes_rare (pre post : list instance)
  (line : instance) (threshold m : Z) :
  Forall has_label pre ->
  min_count (count_labels (pre ++ line :: post)) line m ->
  m < threshold ->
  exists s kpost,
    for_each pre
      (downsample_line draws (count_labels (pre ++ line :: post)) threshold)
      ds_init
    = (s, Ok tt)
    /\ sublist (ds_out s) pre
    /\ sublist kpost post
    /\ ds_out (downsample draws (pre ++ line :: post) threshold).1
       = ds_out s ++ line :: kpost.
Proof.
  intros Hpre Hmin Hlt.
  destruct (downsample_run_split pre line post threshold Hpre)
    as (s & Hs & Hsub & Hrun).
  rewrite Hrun. unfold bind.
  rewrite (downsample_keeps_rare_step draws _ _ _ _ _ Hmin Hlt).
  match goal with
  | |- context [for_each post ?b ?s2] =>
      destruct (downsample_loop_inv draws
                  (count_labels (pre ++ line :: post)) threshold post s2)
        as (kpost & Hout & Hsubpost & _)
  end.
  exists s, kpost. split; [done|]. split; [done|]. split; [done|].
  rewrite Hout. cbn. by rewrite <- app_assoc.
Qed.

(** C7 as stated, on the file [corpus_blocked] with the threshold 2: the
    second line has the least label count 2, the probability is
    [(2 + 0 ** .55) / 2], every draw of the generator is below it, and
    the line is not written; the run stops at the first line. *)
Lemma downsample_common_not_written :
  min_count (count_labels corpus_blocked) (labelled ["B"]) 2
  /\ 2 <= 2
  /\ (forall n,
        flt (half n)
          (fdiv (fadd (of_int 2) (fpow (of_int (2 - 2)) point55)) (of_int 2))
        = true)
  /\ downsample half corpus_blocked 2
     = ({| ds_out := []; total_num := 1; sample_num := 0; ds_rng := 0 |},
        Raise IndexError).
Proof.
  split; [|split; [lia|split; [intros n; by vm_compute|by vm_compute]]].
  split.
  - exists (span 0 1 ["B"]), "B".
    split; [cbn; constructor|]. split; [cbn; constructor|reflexivity].
  - intros a l Ha Hl. rewrite (elem_of_labelled _ _ Ha) in Hl.
    apply list_elem_of_singleton in Hl as ->. by vm_compute.
Qed.

(** C7, amended. In a run of [downsample], an instance whose least label
    count [m] is at least the threshold, and which the loop reaches
    (every instance before it in the file carries a label), takes one
    draw [u], the next one of the generator, and is written, at its place
    among the lines written, exactly when
    [u < (threshold + (m - threshold) ** .55) / m]. *)
Theorem downsample_run_samples_common (pre post : list instance)
  (line : instance) (threshold m : Z) :
  Forall has_label pre ->
  min_count (count_labels (pre ++ line :: post)) line m ->
  threshold <= m ->
  exists s kpost,
    for_each pre
      (downsample_line draws (count_labels (pre ++ line :: post)) threshold)
      ds_init
    = (s, Ok tt)
    /\ sublist (ds_out s) pre
    /\ sublist kpost post
    /\ let u := draws (ds_rng s) in
       let p :=
         fdiv
           (fadd (of_int threshold) (fpow (of_int (m - threshold)) point55))
           (of_int m) in
       ds_out (downsample draws (pre ++ line :: post) threshold).1
       = ds_out s ++ (if flt u p then [line] else []) ++ kpost.
Proof.
  intros Hpre Hmin Hge.
  destruct (downsample_run_split pre line post threshold Hpre)
    as (s & Hs & Hsub & Hrun).
  rewrite Hrun. unfold bind.
  assert (Hm0 : m <> 0).
  { destruct Hmin as [(a & l & Ha & Hl & <-) _].
    assert (0 < counter_get (count_labels (pre ++ line :: post)) l);
      [|lia].
    eapply count_labels_pos; [|done..]. apply elem_of_app. right.
    constructor. }
  rewrite (downsample_draw_step draws _ _ _ _ _ Hmin Hge Hm0).
  match goal with
  | |- context [for_each post ?b ?s2] =>
      destruct (downsample_loop_inv draws
                  (count_labels (pre ++ line :: post)) threshold post s2)
        as (kpost & Hout & Hsubpost & _)
  end.
  exists s, kpost. split; [done|]. split; [done|]. split; [done|].
  cbn zeta. rewrite Hout. cbn [ds_out].
  destruct (flt _ _); [by rewrite <- app_assoc|done].
Qed.

End DownsampleRuns.

(** ** wikiann2cfet: a document id that occurs twice *)

Section RepeatedId.

Import SampleCfet Wikiann2Cfet Examples.

(** C10 as stated, on a store in which the document [other_doc] comes
    twice: each has one valid entity, and the second gets the suffix 1,
    not 0; the counter of an id is not reset between documents. *)
Lemma mention_id_repeated_doc_id :
  out (extract_data types_of ontology [other_doc; other_doc])
  = [{| tokens := ["The"; "cat"; "sat"];
        annotations :=
          [{| mention := "cat"; mention_id := "d0-0"; start := 1; end_ := 2;
              labels := ["Animal"] |}] |};
     {| tokens := ["The"; "cat"; "sat"];
        annotations :=
          [{| mention := "cat"; mention_id := "d0-1"; start := 1; end_ := 2;
              labels := ["Animal"] |}] |}]
  /\ "d0-1" <> "d0-0".
Proof. split; [by vm_compute|discriminate]. Qed.

End RepeatedId.

(** ** The run-level statements at concrete inputs *)

Section RunInstances.

Import SampleCfet Examples.

Lemma min_count_ten : min_count (count_labels corpus_ten) (labelled ["A"]) 10.
Proof.
  split.
  - exists (span 0 1 ["A"]), "A".
    split; [cbn; constructor|]. split; [cbn; constructor|by vm_compute].
  - intros a l Ha Hl. rewrite (elem_of_labelled _ _ Ha) in Hl.
    apply list_elem_of_singleton in Hl as ->. by vm_compute.
Qed.

Lemma has_label_three_A : Forall has_label (repeat (labelled ["A"]) 3).
Proof. repeat constructor; apply has_label_labelled. Qed.

Lemma downsample_run_writes_rare_witness :
  Forall has_label (repeat (labelled ["A"]) 3)
  /\ min_count
       (count_labels
          (repeat (labelled ["A"]) 3
           ++ labelled ["A"] :: repeat (labelled ["A"]) 6))
       (labelled ["A"]) 10
  /\ 10 < 11
  /\ exists s kpost,
       for_each (repeat (labelled ["A"]) 3)
         (downsample_line half
            (count_labels
               (repeat (labelled ["A"]) 3
                ++ labelled ["A"] :: repeat (labelled ["A"]) 6)) 11)
         ds_init
       = (s, Ok tt)
       /\ sublist (ds_out s) (repeat (labelled ["A"]) 3)
       /\ sublist kpost (repeat (labelled ["A"]) 6)
       /\ ds_out
            (downsample half
               (repeat (labelled ["A"]) 3
                ++ labelled ["A"] :: repeat (labelled ["A"]) 6) 11).1
          = ds_out s ++ labelled ["A"] :: kpost.
Proof.
  split; [exact has_label_three_A|]. split; [exact min_count_ten|].
  split; [lia|].
  apply (downsample_run_writes_rare half (repeat (labelled ["A"]) 3)
           (repeat (labelled ["A"]) 6) (labelled ["A"]) 11 10
           has_label_three_A min_count_ten).
  lia.
Defined.

Lemma downsample_run_samples_common_witness :
  Forall has_label (repeat (labelled ["A"]) 3)
  /\ min_count
       (count_labels
          (repeat (labelled ["A"]) 3
           ++ labelled ["A"] :: repeat (labelled ["A"]) 6))
       (labelled ["A"]) 10
  /\ 1 <= 10
  /\ exists s kpost,
       for_each (repeat (labelled ["A"]) 3)
         (downsample_line half
            (count_labels
               (repeat (labelled ["A"]) 3
                ++ labelled ["A"] :: repeat (labelled ["A"]) 6)) 1)
         ds_init
       = (s, Ok tt)
       /\ sublist (ds_out s) (repeat (labelled ["A"]) 3)
       /\ sublist kpost (repeat (labelled ["A"]) 6)
       /\ ds_out
            (downsample half
               (repeat (labelled ["A"]) 3
                ++ labelled ["A"] :: repeat (labelled ["A"]) 6) 1).1
          = ds_out s
            ++ (if flt (half (ds_rng s))
                     (fdiv (fadd (of_int 1) (fpow (of_int (10 - 1)) point55))
                        (of_int 10))
                then [labelled ["A"]] else [])
            ++ kpost.
Proof.
  split; [exact has_label_three_A|]. split; [exact min_count_ten|].
  split; [lia|].
  apply (downsample_run_samples_common half (repeat (labelled ["A"]) 3)
           (repeat (labelled ["A"]) 6) (labelled ["A"]) 1 10
           has_label_three_A min_count_ten).
  lia.
Defined.

(** With the count 10 and the threshold 1 the probability is
    [(1 + 9 ** .55) / 10], about 0.43: a generator that returns one half
    drops every line. *)
Example downsample_ten :
  downsample half corpus_ten 1
  = ({| ds_out := []; total_num := 10; sample_num := 0; ds_rng := 10 |},
     Ok tt).
Proof. by vm_compute. Qed.

End RunInstances.
